(** * inspect_dataset.py: bounded discovery and structural inspection

    A shallow embedding of [inspect-dataset/scripts/inspect_dataset.py].
    The script walks a dataset root with a global file budget, an allowlist
    of subdirectory names and a depth bound, and summarises every CSV or
    Parquet file it finds.

    Conventions of the embedding:
    - Python [int] is [Z]; [len] is a [Z]; a [list] is a Rocq [list]; a
      [dict] with [str] keys is a [gmap].
    - A file name is a [string] of bytes (its UTF-8 encoding); bytewise
      order on UTF-8 is code point order, which is how Python compares [str].
    - Decoded text is a list of code points ([ustr]).
    - The filesystem snapshot is a finite tree ([node]); a [Path] carries its
      components together with what the snapshot holds there, so that
      [is_file], [is_dir] and [iterdir] are functions of the [Path] as in
      the source.  [stat] itself never fails in this model.
    - A raised exception is the left injection of a sum.

    What lies outside the embedding.  The snapshot has no permissions beyond
    "this directory cannot be listed", and the libraries are taken at their
    regular behaviour.  The source can therefore raise where the embedding
    returns:
    - [open] refuses a regular file ([PermissionError]), or [is_file] and
      [is_dir] fail on the entry of a directory that can be listed but not
      searched;
    - [csv] rejects the text ([csv.Error], for one on a field longer than
      [csv.field_size_limit()]);
    - [table[column_name]] finds the name of a column twice in the first
      batch of a Parquet file ([KeyError]).
    Statements about a summary or a report are for this reason made of the
    summary or report that is returned, and the statement about the first
    batch of a Parquet file is made for column names that are pairwise
    distinct. *)

From Stdlib Require Import ZArith List String Ascii Lia Sorted Permutation.
From stdpp Require Import base list gmap strings pretty.
From Equations Require Import Equations.
Import ListNotations.
#[local] Open Scope string_scope.
#[local] Open Scope Z_scope.
#[local] Open Scope list_scope.
#[local] Set Warnings "-register-all".

(** ** Python values *)

Inductive exn :=
| OSError
| UnicodeDecodeError
| KeyError
| AttributeError
| ValueError (msg : string).

Definition len {A} (l : list A) : Z := Z.of_nat (length l).

(** [l[:n]]: a negative bound counts from the end of the list. *)
Definition slice_to {A} (l : list A) (n : Z) : list A :=
  if 0 <=? n then take (Z.to_nat n) l else take (Z.to_nat (len l + n)) l.

(** [str.lower] on the ASCII range.  The only code points outside ASCII
    whose lower case reaches ASCII are U+212A (k) and U+0130 (i), and neither
    letter occurs in a recognised suffix, so bytes above 127 stay as they are. *)
Definition lower_ascii (c : ascii) : ascii :=
  let n := nat_of_ascii c in
  if ((65 <=? n) && (n <=? 90))%nat then ascii_of_nat (n + 32) else c.

Fixpoint lower (s : string) : string :=
  match s with
  | EmptyString => EmptyString
  | String c r => String (lower_ascii c) (lower r)
  end.

(** The part of [s] from its last dot on, if it has a dot. *)
Fixpoint from_last_dot (s : string) : option string :=
  match s with
  | EmptyString => None
  | String c r =>
      match from_last_dot r with
      | Some t => Some t
      | None => if Ascii.eqb c "." then Some s else None
      end
  end.

(** ** The filesystem snapshot *)

Inductive node :=
| File (content : list Byte.byte)
| Dir (listable : bool) (entries : list (string * node))
| Special
| Missing.

Record Path := mkPath { parts : list string; target : node }.

Definition name (p : Path) : string := List.last (parts p) "".

(** [PurePath.suffix]: [i = name.rfind('.')], and [name[i:]] when
    [0 < i < len(name) - 1], the empty string otherwise. *)
Definition suffix (p : Path) : string :=
  match name p with
  | EmptyString => ""
  | String _ r =>
      match from_last_dot r with
      | Some t => if (1 <? String.length t)%nat then t else ""
      | None => ""
      end
  end.

Definition is_file (p : Path) : bool :=
  match target p with File _ => true | _ => false end.

Definition is_dir (p : Path) : bool :=
  match target p with Dir _ _ => true | _ => false end.

Definition exists_ (p : Path) : bool :=
  match target p with Missing => false | _ => true end.

Fixpoint lookup_entry (n : string) (es : list (string * node)) : node :=
  match es with
  | [] => Missing
  | (m, t) :: r => if String.eqb m n then t else lookup_entry n r
  end.

(** [p / n] *)
Definition joinpath (p : Path) (n : string) : Path :=
  mkPath (parts p ++ [n])
         (match target p with
          | Dir _ es => lookup_entry n es
          | _ => Missing
          end).

(** [p.iterdir()], in the order the operating system gives; [OSError] when
    the directory cannot be listed. *)
Definition iterdir (p : Path) : exn + list Path :=
  match target p with
  | Dir true es => inr (map (fun e => mkPath (parts p ++ [fst e]) (snd e)) es)
  | _ => inl OSError
  end.

(** [sorted(..., key=lambda item: item.name)]: a stable sort. *)
Fixpoint insert_by_name (x : Path) (l : list Path) : list Path :=
  match l with
  | [] => [x]
  | y :: r => if String.leb (name x) (name y) then x :: l else y :: insert_by_name x r
  end.

Definition sorted_by_name (l : list Path) : list Path :=
  foldr insert_by_name [] l.

Fixpoint node_size (n : node) : nat :=
  match n with
  | Dir _ es => S (list_sum (map (fun e => node_size (snd e)) es))
  | _ => 1%nat
  end.

(** ** Discovery *)

Definition DEFAULT_MAX_FILES : Z := 12.
Definition DEFAULT_SAMPLE_ROWS : Z := 200.
Definition DEFAULT_SUBDIR_MAX_DEPTH : Z := 2.
Definition TABULAR_SUFFIXES : list string := [".csv"; ".parquet"].
Definition ALLOWED_SUBDIRECTORIES : list string :=
  ["train"; "val"; "valid"; "validation"; "test"; "metadata"; "labels"; "annotations"].

Record InspectionWarning := mkWarning { code : string; message : string }.

Definition is_tabular_file (path : Path) : bool :=
  is_file path && existsb (String.eqb (lower (suffix path))) TABULAR_SUFFIXES.

Definition list_root_tabular_files (dataset_root : Path) : exn + list Path :=
  match iterdir dataset_root with
  | inl e => inl e
  | inr children => inr (List.filter is_tabular_file (sorted_by_name children))
  end.

Definition list_allowlisted_directories (dataset_root : Path) : list Path :=
  List.filter is_dir (map (joinpath dataset_root) ALLOWED_SUBDIRECTORIES).

(** The [for entry in entries] loop of [bounded_scan_directory], on the
    pair (queue, discovered). *)
Fixpoint scan_entries (max_depth limit depth : Z) (entries : list Path)
    (st : list (Path * Z) * list Path) : list (Path * Z) * list Path :=
  match entries with
  | [] => st
  | entry :: rest =>
      let '(queue, discovered) := st in
      if limit <=? len discovered then st
      else if is_tabular_file entry then
        scan_entries max_depth limit depth rest (queue, discovered ++ [entry])
      else if is_dir entry && (depth <? max_depth) then
        scan_entries max_depth limit depth rest (queue ++ [(entry, depth + 1)], discovered)
      else scan_entries max_depth limit depth rest st
  end.

Definition queue_size (queue : list (Path * Z)) : nat :=
  list_sum (map (fun item => node_size (target (fst item))) queue).

(** The queue only ever receives children of the directory just taken from
    it, so the total size of the queued subtrees decreases at every turn of
    the [while] loop. *)
Definition paths_size (l : list Path) : nat :=
  list_sum (map (fun p => node_size (target p)) l).

Lemma paths_size_insert x l :
  paths_size (insert_by_name x l) = (node_size (target x) + paths_size l)%nat.
Proof.
  induction l as [|y r IH]; simpl; [reflexivity|].
  destruct (String.leb (name x) (name y)); simpl; [reflexivity|].
  unfold paths_size in *; simpl; rewrite IH; lia.
Qed.

Lemma paths_size_sorted l : paths_size (sorted_by_name l) = paths_size l.
Proof.
  induction l as [|x r IH]; simpl; [reflexivity|].
  rewrite paths_size_insert, IH; reflexivity.
Qed.

Lemma paths_size_iterdir p es :
  iterdir p = inr es -> (paths_size es < node_size (target p))%nat.
Proof.
  unfold iterdir; destruct (target p) as [|[] ents| |]; try discriminate.
  intros [= <-]; unfold paths_size; simpl.
  rewrite map_map; simpl; lia.
Qed.

Lemma queue_size_app q1 q2 :
  queue_size (q1 ++ q2) = (queue_size q1 + queue_size q2)%nat.
Proof.
  unfold queue_size; rewrite map_app, list_sum_app; reflexivity.
Qed.

Lemma scan_entries_queue_size max_depth limit depth entries queue discovered :
  (queue_size (fst (scan_entries max_depth limit depth entries (queue, discovered)))
   <= queue_size queue + paths_size entries)%nat.
Proof.
  revert queue discovered.
  induction entries as [|e r IH]; intros queue discovered; simpl; [lia|].
  unfold paths_size in *; simpl.
  destruct (limit <=? len discovered); simpl; [lia|].
  destruct (is_tabular_file e).
  - specialize (IH queue (discovered ++ [e])); lia.
  - destruct (is_dir e && (depth <? max_depth)).
    + specialize (IH (queue ++ [(e, depth + 1)]) discovered).
      rewrite queue_size_app in IH; unfold queue_size in IH at 3; simpl in IH; lia.
    + specialize (IH queue discovered); lia.
Qed.

(** A value together with the equation that names it, so that a branch on
    [iterdir] keeps the listing's origin for the termination proof. *)
Definition with_eq {A} (x : A) : {y : A | x = y} := exist _ x eq_refl.

(** The [while queue and len(discovered) < limit] loop. *)
Equations? scan_loop (max_depth limit : Z) (queue : list (Path * Z))
    (discovered : list Path) : list Path by wf (queue_size queue) lt :=
  scan_loop max_depth limit [] discovered := discovered;
  scan_loop max_depth limit ((current_dir, depth) :: rest) discovered
    with (len discovered <? limit) := {
    | false := discovered;
    | true with with_eq (iterdir current_dir) := {
      | exist _ (inl err) Herr := scan_loop max_depth limit rest discovered;
      | exist _ (inr entries) Hls :=
          scan_loop max_depth limit
            (fst (scan_entries max_depth limit depth (sorted_by_name entries) (rest, discovered)))
            (snd (scan_entries max_depth limit depth (sorted_by_name entries) (rest, discovered))) } }.
Proof.
  - unfold queue_size; simpl. destruct (target current_dir); simpl; lia.
  - pose proof (scan_entries_queue_size max_depth limit depth
                  (sorted_by_name entries) rest discovered) as Hq.
    rewrite paths_size_sorted in Hq.
    pose proof (paths_size_iterdir _ _ Hls) as Hlt.
    unfold queue_size at 2; simpl. fold (queue_size rest). lia.
Qed.

Definition bounded_scan_directory (root : Path) (max_depth limit : Z) : list Path :=
  if limit <=? 0 then []
  else scan_loop max_depth limit [(root, 0)] [].

(** The [for subdir in allowlisted_dirs] loop of [discover_tabular_files],
    on the pair (discovered, remaining). *)
Fixpoint scan_subdirs (max_files subdir_max_depth : Z) (allowlisted_dirs : list Path)
    (st : list Path * Z) : list Path * Z :=
  match allowlisted_dirs with
  | [] => st
  | subdir :: rest =>
      let '(discovered, remaining) := st in
      if remaining <=? 0 then st
      else
        let newly_found := bounded_scan_directory subdir subdir_max_depth remaining in
        let discovered := discovered ++ newly_found in
        scan_subdirs max_files subdir_max_depth rest
          (discovered, max_files - len discovered)
  end.

Definition no_allowlisted_dirs : InspectionWarning :=
  mkWarning "no_allowlisted_dirs"
    "No allowlisted subdirectories were found; inspected only root-level tabular files.".

Definition max_files_reached (max_files : Z) : InspectionWarning :=
  mkWarning "max_files_reached"
    ("Stopped after reaching --max-files=" +:+ pretty max_files +:+ ".").

Definition no_tabular_files_found : InspectionWarning :=
  mkWarning "no_tabular_files_found"
    "No CSV/Parquet files were found with the current bounded scan rules.".

Definition discover_tabular_files (dataset_root : Path) (max_files subdir_max_depth : Z)
    : exn + (list Path * list InspectionWarning) :=
  match list_root_tabular_files dataset_root with
  | inl e => inl e
  | inr discovered =>
      if max_files <=? len discovered then inr (slice_to discovered max_files, [])
      else
        let remaining := max_files - len discovered in
        let allowlisted_dirs := list_allowlisted_directories dataset_root in
        match allowlisted_dirs with
        | [] => inr (discovered, [no_allowlisted_dirs])
        | _ =>
            let '(discovered, remaining) :=
              scan_subdirs max_files subdir_max_depth allowlisted_dirs (discovered, remaining) in
            inr (discovered,
                 if remaining <=? 0 then [max_files_reached max_files]
                 else match discovered with
                      | [] => [no_tabular_files_found]
                      | _ => []
                      end)
        end
  end.


(** ** The traversal order, stated by levels

    What the specification calls the deterministic order of discovery: the
    children of a directory in name order, the tabular files of one level of
    directories before those of the next. *)

Definition listing (p : Path) : list Path :=
  match iterdir p with
  | inr children => sorted_by_name children
  | inl _ => []
  end.

Definition tabular_children (p : Path) : list Path :=
  List.filter is_tabular_file (listing p).

Definition subdirectories (p : Path) : list Path :=
  List.filter is_dir (listing p).

(** [level_order d level]: the tabular files directly inside the directories
    of [level], in the order of [level], then those of the next level, for
    [d] further levels. *)
Fixpoint level_order (d : nat) (level : list Path) : list Path :=
  flat_map tabular_children level ++
  match d with
  | O => []
  | S d' => level_order d' (flat_map subdirectories level)
  end.

(** The candidates in the order the specification gives them, before the
    budget cuts the list. *)
Definition discovery_order (dataset_root : Path) (subdir_max_depth : Z) : list Path :=
  tabular_children dataset_root ++
  flat_map (fun subdir => level_order (Z.to_nat subdir_max_depth) [subdir])
           (list_allowlisted_directories dataset_root).

Definition name_le (p q : Path) : Prop := String.leb (name p) (name q) = true.

(** What one pass over the sorted entries of a directory at [depth] adds to
    the queue when the limit is not reached. *)
Definition enqueued (max_depth depth : Z) (entries : list Path) : list (Path * Z) :=
  map (fun e => (e, depth + 1))
      (List.filter (fun e => negb (is_tabular_file e) && (is_dir e && (depth <? max_depth))) entries).

(** The levels after the current one, [r] of them. *)
Definition next_levels (r : nat) (level : list Path) : list Path :=
  match r with
  | O => []
  | S r' => level_order r' level
  end.

(** ** Text files

    [path.open("r", encoding="utf-8", errors=..., newline="")]: the bytes of
    the file decoded as UTF-8.  Under [Strict] an ill-formed sequence raises
    [UnicodeDecodeError]; under [Replace] each maximal ill-formed prefix
    becomes U+FFFD and decoding goes on after it. *)

Definition ustr : Type := list N.

Inductive error_policy := Strict | Replace.

Definition REPLACEMENT_CHARACTER : N := 0xFFFD.

Definition between (lo hi b : N) : bool := ((lo <=? b) && (b <=? hi))%N.

Definition emit (c : N) (rest : exn + ustr) : exn + ustr :=
  match rest with
  | inr s => inr (c :: s)
  | inl e => inl e
  end.

Definition undecodable (errors : error_policy) (rest : exn + ustr) : exn + ustr :=
  match errors with
  | Strict => inl UnicodeDecodeError
  | Replace => emit REPLACEMENT_CHARACTER rest
  end.

(** The range of the byte that may follow the lead byte [b0] of a sequence of
    three or four bytes. *)
Definition second_byte (b0 b1 : N) : bool :=
  if (b0 =? 0xE0)%N then between 0xA0 0xBF b1
  else if (b0 =? 0xED)%N then between 0x80 0x9F b1
  else if (b0 =? 0xF0)%N then between 0x90 0xBF b1
  else if (b0 =? 0xF4)%N then between 0x80 0x8F b1
  else between 0x80 0xBF b1.

Definition low6 (b : N) : N := N.land b 0x3F.

Fixpoint decode_utf8 (errors : error_policy) (bs : list N) : exn + ustr :=
  match bs with
  | [] => inr []
  | b0 :: r0 =>
      if (b0 <? 0x80)%N then emit b0 (decode_utf8 errors r0)
      else if between 0xC2 0xDF b0 then
        match r0 with
        | [] => undecodable errors (inr [])
        | b1 :: r1 =>
            if between 0x80 0xBF b1
            then emit (N.land b0 0x1F * 64 + low6 b1)%N (decode_utf8 errors r1)
            else undecodable errors (decode_utf8 errors r0)
        end
      else if between 0xE0 0xEF b0 then
        match r0 with
        | [] => undecodable errors (inr [])
        | b1 :: r1 =>
            if second_byte b0 b1 then
              match r1 with
              | [] => undecodable errors (inr [])
              | b2 :: r2 =>
                  if between 0x80 0xBF b2
                  then emit ((N.land b0 0x0F * 64 + low6 b1) * 64 + low6 b2)%N
                            (decode_utf8 errors r2)
                  else undecodable errors (decode_utf8 errors r1)
              end
            else undecodable errors (decode_utf8 errors r0)
        end
      else if between 0xF0 0xF4 b0 then
        match r0 with
        | [] => undecodable errors (inr [])
        | b1 :: r1 =>
            if second_byte b0 b1 then
              match r1 with
              | [] => undecodable errors (inr [])
              | b2 :: r2 =>
                  if between 0x80 0xBF b2 then
                    match r2 with
                    | [] => undecodable errors (inr [])
                    | b3 :: r3 =>
                        if between 0x80 0xBF b3
                        then emit (((N.land b0 0x07 * 64 + low6 b1) * 64 + low6 b2) * 64
                                   + low6 b3)%N
                                  (decode_utf8 errors r3)
                        else undecodable errors (decode_utf8 errors r2)
                    end
                  else undecodable errors (decode_utf8 errors r1)
              end
            else undecodable errors (decode_utf8 errors r0)
        end
      else undecodable errors (decode_utf8 errors r0)
  end.

(** [path.open("r", encoding="utf-8", errors=errors, newline="").read()];
    opening something that is not a regular file raises [OSError].  Every
    regular file of the snapshot can be opened. *)
Definition read_text (path : Path) (errors : error_policy) : exn + ustr :=
  match target path with
  | File content => decode_utf8 errors (map Byte.to_N content)
  | _ => inl OSError
  end.

(** [str.isspace] of one code point. *)
Definition is_space (c : N) : bool :=
  between 0x09 0x0D c || between 0x1C 0x20 c || (c =? 0x85)%N || (c =? 0xA0)%N
  || (c =? 0x1680)%N || between 0x2000 0x200A c || (c =? 0x2028)%N || (c =? 0x2029)%N
  || (c =? 0x202F)%N || (c =? 0x205F)%N || (c =? 0x3000)%N.

Fixpoint lstrip (s : ustr) : ustr :=
  match s with
  | c :: r => if is_space c then lstrip r else s
  | [] => []
  end.

Definition strip (s : ustr) : ustr := rev (lstrip (rev (lstrip s))).

Definition path_str (p : Path) : string := String.concat "/" (parts p).

(** ** The CSV inspector *)

Definition EMPTY_CELL_VALUE : ustr := [].

Record CsvSummary := mkCsvSummary {
  kind : string;
  path : string;
  columns : list ustr;
  sampled_rows : Z;
  null_counts : gmap ustr Z
}.

(** A value of a [csv.DictReader] row: a cell, [None] for a cell the row
    does not have, or the list of the cells beyond the header. *)
Inductive cell :=
| Str (s : ustr)
| PyNone
| Rest (l : list ustr).

Section CsvInspector.

(** [csv.reader] over the decoded text with the default dialect: the rows of
    the file, the header first, an empty line as the empty row.  The reader
    is a function of the text: a text that [csv] rejects with [csv.Error] has
    no rows to give and is not covered. *)
Variable csv_reader : ustr -> list (list ustr).

(** [DictReader.fieldnames]: the first row, [None] when there is none. *)
Definition fieldnames (records : list (list ustr)) : option (list (option ustr)) :=
  match records with
  | [] => None
  | header :: _ => Some (map Some header)
  end.

(** [dict(zip(fieldnames, row))], the cells beyond the header under the key
    [None] (the default [restkey]), the header names beyond the row mapped
    to [None] (the default [restval]). *)
Definition dict_row (header row : list ustr) : gmap (option ustr) cell :=
  let d := foldl (fun d kv => <[Some (fst kv) := Str (snd kv)]> d) ∅ (zip header row) in
  let lf := length header in
  let lr := length row in
  if (lf <? lr)%nat then <[None := Rest (drop lf row)]> d
  else if (lr <? lf)%nat then foldl (fun d key => <[Some key := PyNone]> d) d (drop lr header)
  else d.

(** The rows [for row in reader] yields: the header is consumed, empty rows
    are passed over. *)
Definition dict_rows (records : list (list ustr)) : list (gmap (option ustr) cell) :=
  match records with
  | [] => []
  | header :: body =>
      map (dict_row header)
          (List.filter (fun row => match row with [] => false | _ => true end) body)
  end.

(** [value is None or value.strip() == EMPTY_CELL_VALUE], for
    [value = row.get(column)]. *)
Definition is_empty_cell (value : option cell) : exn + bool :=
  match value with
  | None => inr true
  | Some PyNone => inr true
  | Some (Str s) => inr (bool_decide (strip s = EMPTY_CELL_VALUE))
  | Some (Rest _) => inl AttributeError
  end.

(** The [for column in columns] loop over one row. *)
Fixpoint count_row (columns : list ustr) (row : gmap (option ustr) cell)
    (null_counts : gmap ustr Z) : exn + gmap ustr Z :=
  match columns with
  | [] => inr null_counts
  | column :: rest =>
      match is_empty_cell (row !! Some column) with
      | inl e => inl e
      | inr true =>
          match null_counts !! column with
          | Some c => count_row rest row (<[column := c + 1]> null_counts)
          | None => inl KeyError
          end
      | inr false => count_row rest row null_counts
      end
  end.

(** The [for row in reader] loop, on the pair (sampled_rows, null_counts). *)
Fixpoint sample_loop (sample_rows : Z) (columns : list ustr)
    (rows : list (gmap (option ustr) cell)) (st : Z * gmap ustr Z)
    : exn + (Z * gmap ustr Z) :=
  match rows with
  | [] => inr st
  | row :: rest =>
      let '(sampled_rows, null_counts) := st in
      if sample_rows <=? sampled_rows then inr st
      else
        match count_row columns row null_counts with
        | inl e => inl e
        | inr null_counts => sample_loop sample_rows columns rest (sampled_rows + 1, null_counts)
        end
  end.

Definition inspect_csv_file (path : Path) (sample_rows : Z) : exn + CsvSummary :=
  match read_text path Replace with
  | inl e => inl e
  | inr text =>
      let records := csv_reader text in
      let columns := omap id (default [] (fieldnames records)) in
      let null_counts := foldl (fun m column => <[column := 0]> m) ∅ columns in
      match sample_loop sample_rows columns (dict_rows records) (0, null_counts) with
      | inl e => inl e
      | inr (sampled_rows, null_counts) =>
          inr (mkCsvSummary "csv" (path_str path) columns sampled_rows null_counts)
      end
  end.

End CsvInspector.

(** ** The Parquet inspector *)

Record FallbackOption := mkOption { tool : string; commands : list string }.

Record Fallback := mkFallback { options : list FallbackOption }.

Record ParquetSummary := mkParquetSummary {
  pq_kind : string;
  pq_path : string;
  status : string;
  pq_columns : list (string * string);
  pq_sampled_rows : option Z;
  pq_null_counts : option (gmap string Z);
  fallback : option Fallback;
  error : option string
}.

(** What [pyarrow] shows of one file: [schema_arrow] as the pairs
    (field.name, str(field.type)), and [next(iter_batches(batch_size), None)]
    as the table built from the first batch, [None] for a file without
    batches, or the message of the exception raised.  [null_count table c]
    is [int(table[c].null_count)]: it is what the source reads when [c]
    names one column of the table, and [table[c]] raises [KeyError] when
    [column_names] holds [c] twice. *)
Record Table := mkTable {
  num_rows : Z;
  column_names : list string;
  null_count : string -> Z
}.

Record ParquetFile := mkParquetFile {
  schema_arrow : list (string * string);
  first_batch : Z -> string + option Table
}.

(** The host: whether [import pyarrow] succeeds and what [pq.ParquetFile]
    then answers (the file, or the message of the exception), and
    [shutil.which]. *)
Record Host := mkHost {
  pyarrow : option (Path -> string + ParquetFile);
  which : string -> bool
}.

Definition DQUOTE : string := String (ascii_of_nat 34) EmptyString.

Fixpoint replace_char (c : ascii) (by_ : string) (s : string) : string :=
  match s with
  | EmptyString => EmptyString
  | String a r => (if Ascii.eqb a c then by_ else String a EmptyString) +:+ replace_char c by_ r
  end.

Fixpoint all_chars (f : ascii -> bool) (s : string) : bool :=
  match s with
  | EmptyString => true
  | String a r => f a && all_chars f r
  end.

(** The characters [shlex.quote] leaves alone: [\w@%+=:,./-] in ASCII. *)
Definition shlex_safe (a : ascii) : bool :=
  let n := nat_of_ascii a in
  ((48 <=? n) && (n <=? 57) || (65 <=? n) && (n <=? 90) || (97 <=? n) && (n <=? 122)
   || existsb (Nat.eqb n) [95; 64; 37; 43; 61; 58; 44; 46; 47; 45])%nat.

Definition shlex_quote (s : string) : string :=
  match s with
  | EmptyString => "''"
  | _ =>
      if all_chars shlex_safe s then s
      else "'" +:+ replace_char "'" ("'" +:+ DQUOTE +:+ "'" +:+ DQUOTE +:+ "'") s +:+ "'"
  end.

(** [str(path.parent)]: the parent of a path of one component is [.]. *)
Definition parent_str (p : Path) : string :=
  match removelast (parts p) with
  | [] => "."
  | components => String.concat "/" components
  end.

Section ParquetInspector.

Variable host : Host.

Definition build_parquet_fallback (path : Path) : Fallback :=
  let shell_quoted_path := shlex_quote (path_str path) in
  let sql_quoted_path := replace_char "'" "''" (path_str path) in
  let options := [] in
  let options :=
    if which host "duckdb" then
      options ++ [mkOption "duckdb"
        ["duckdb -c " +:+ DQUOTE +:+ "DESCRIBE SELECT * FROM read_parquet('"
           +:+ sql_quoted_path +:+ "') LIMIT 0;" +:+ DQUOTE;
         "duckdb -c " +:+ DQUOTE +:+ "SELECT * FROM read_parquet('"
           +:+ sql_quoted_path +:+ "') LIMIT 5;" +:+ DQUOTE]]
    else options in
  let options :=
    if which host "parquet-tools" then
      options ++ [mkOption "parquet-tools"
        ["parquet-tools schema " +:+ shell_quoted_path;
         "parquet-tools head " +:+ shell_quoted_path]]
    else options in
  let options :=
    options ++ [mkOption "uv"
      ["uv run --with pyarrow inspect-dataset/scripts/inspect_dataset.py --dataset-root "
         +:+ shlex_quote (parent_str path)]] in
  mkFallback options.

(** The loop over [table.column_names] is the fold below for a first batch
    whose column names are pairwise distinct. *)
Definition inspect_parquet_file (path : Path) (sample_rows : Z) : ParquetSummary :=
  match pyarrow host with
  | None =>
      mkParquetSummary "parquet" (path_str path) "fallback-required" [] None None
        (Some (build_parquet_fallback path))
        (Some "pyarrow is not installed in the active Python environment.")
  | Some open_parquet =>
      match open_parquet path with
      | inl err =>
          mkParquetSummary "parquet" (path_str path) "read-error" [] None None
            (Some (build_parquet_fallback path))
            (Some ("pyarrow failed to open file: " +:+ err))
      | inr parquet_file =>
          let columns := schema_arrow parquet_file in
          match first_batch parquet_file sample_rows with
          | inl err =>
              mkParquetSummary "parquet" (path_str path) "read-error" columns None None
                (Some (build_parquet_fallback path))
                (Some ("pyarrow failed while reading sample rows: " +:+ err))
          | inr batch =>
              let '(sampled_rows, null_counts) :=
                match batch with
                | Some table =>
                    (num_rows table,
                     foldl (fun m column_name => <[column_name := null_count table column_name]> m)
                           ∅ (column_names table))
                | None => (0, ∅)
                end in
              mkParquetSummary "parquet" (path_str path) "ok" columns
                (Some sampled_rows) (Some null_counts) None None
          end
      end
  end.

End ParquetInspector.

(** ** The run *)

Inductive Inspection :=
| CsvInspection (summary : CsvSummary)
| ParquetInspection (summary : ParquetSummary).

Record Namespace := mkArgs {
  args_dataset_root : Path;
  args_max_files : Z;
  args_sample_rows : Z;
  args_subdir_max_depth : Z;
  args_output : string
}.

Record Report := mkReport {
  report_dataset_root : string;
  report_max_files : Z;
  report_sample_rows : Z;
  report_subdir_max_depth : Z;
  inspections : list Inspection;
  warnings : list InspectionWarning
}.

Definition subdir_scan_disabled : InspectionWarning :=
  mkWarning "subdir_scan_disabled"
    "Subdirectory scanning disabled; only root-level files are inspected.".

(** [args_dataset_root] is the root after [expanduser().resolve()]. *)
Definition validate_inputs (args : Namespace) : exn + (Path * list InspectionWarning) :=
  let dataset_root := args_dataset_root args in
  if negb (exists_ dataset_root) then
    inl (ValueError ("Dataset root does not exist: " +:+ path_str dataset_root))
  else if negb (is_dir dataset_root) then
    inl (ValueError ("Dataset root is not a directory: " +:+ path_str dataset_root))
  else if args_max_files args <=? 0 then
    inl (ValueError "--max-files must be greater than zero.")
  else if args_sample_rows args <=? 0 then
    inl (ValueError "--sample-rows must be greater than zero.")
  else if args_subdir_max_depth args <? 0 then
    inl (ValueError "--subdir-max-depth must be zero or greater.")
  else
    inr (dataset_root,
         if args_subdir_max_depth args =? 0 then [subdir_scan_disabled] else []).

Section Run.

Variable csv_reader : ustr -> list (list ustr).
Variable host : Host.

Definition inspect_file (path : Path) (sample_rows : Z) : exn + Inspection :=
  if String.eqb (lower (suffix path)) ".csv" then
    match inspect_csv_file csv_reader path sample_rows with
    | inl e => inl e
    | inr summary => inr (CsvInspection summary)
    end
  else inr (ParquetInspection (inspect_parquet_file host path sample_rows)).

(** [[inspect_file(path, sample_rows) for path in discovered_files]] *)
Fixpoint inspect_all (discovered_files : list Path) (sample_rows : Z)
    : exn + list Inspection :=
  match discovered_files with
  | [] => inr []
  | path :: rest =>
      match inspect_file path sample_rows with
      | inl e => inl e
      | inr item =>
          match inspect_all rest sample_rows with
          | inl e => inl e
          | inr items => inr (item :: items)
          end
      end
  end.

(** [main] up to the printing of the report: the exit code and the report
    that is rendered, or the exception that ends the run.  A run of the
    source can also end with an exception that an inspector raises outside
    the embedding. *)
Definition main (args : Namespace) : exn + (Z * option Report) :=
  match validate_inputs args with
  | inl (ValueError _) => inr (2, None)
  | inl e => inl e
  | inr (dataset_root, input_warnings) =>
      match discover_tabular_files dataset_root (args_max_files args)
              (args_subdir_max_depth args) with
      | inl e => inl e
      | inr (discovered_files, discovery_warnings) =>
          match inspect_all discovered_files (args_sample_rows args) with
          | inl e => inl e
          | inr inspections =>
              inr (0, Some (mkReport (path_str dataset_root) (args_max_files args)
                              (args_sample_rows args) (args_subdir_max_depth args)
                              inspections (input_warnings ++ discovery_warnings)))
          end
      end
  end.

End Run.

(** ** Example snapshots *)

Definition empty_files (names : list string) : list (string * node) :=
  map (fun n => (n, File [])) names.

Definition file_at (components : list string) : Path := mkPath components (File []).

(** A small dataset: two tabular files and a text file at the root, a
    [train] directory three levels deep, a [test] directory that cannot be
    listed, and a directory outside the allowlist. *)
Definition small_tree : Path :=
  mkPath ["data"] (Dir true [
    ("b.csv", File []); ("a.CSV", File []); ("notes.txt", File []);
    ("train", Dir true [
       ("z.parquet", File []);
       ("sub", Dir true [("q.csv", File []); ("deep", Dir true [("r.csv", File [])])]);
       ("a.csv", File [])]);
    ("test", Dir false [("x.csv", File [])]);
    ("other", Dir true [("o.csv", File [])])]).

(** Scenario C of the specification: fifteen CSV files at the root (and a
    [train] directory with one more). *)
Definition scenario_C : Path :=
  mkPath ["data"] (Dir true (
    ("train", Dir true [("t.csv", File [])]) ::
    empty_files ["f00.csv"; "f01.csv"; "f02.csv"; "f03.csv"; "f04.csv"; "f05.csv";
                 "f06.csv"; "f07.csv"; "f08.csv"; "f09.csv"; "f10.csv"; "f11.csv";
                 "f12.csv"; "f13.csv"; "f14.csv"])).

(** Scenario D of the specification: the only file of [train] lies three
    directories below it. *)
Definition scenario_D : Path :=
  mkPath ["data"] (Dir true [
    ("train", Dir true [("a", Dir true [("b", Dir true [("c", Dir true [
       ("deep.csv", File [])])])])])]).

(** Scenario B of the specification: nothing tabular, nothing allowlisted. *)
Definition scenario_B : Path :=
  mkPath ["data"] (Dir true [("README.md", File []); ("images", Dir true [])]).

(** A snapshot in which every directory that cannot be listed is replaced
    by an empty directory that can: what the scan is said to make of it. *)
Fixpoint as_empty (n : node) : node :=
  match n with
  | Dir true es => Dir true (map (fun e => (fst e, as_empty (snd e))) es)
  | Dir false _ => Dir true []
  | _ => n
  end.

Definition as_empty_path (p : Path) : Path := mkPath (parts p) (as_empty (target p)).

(** The same below the dataset root, the root itself left as it is. *)
Definition unlistable_as_empty (dataset_root : Path) : Path :=
  mkPath (parts dataset_root)
    match target dataset_root with
    | Dir l es => Dir l (map (fun e => (fst e, as_empty (snd e))) es)
    | t => t
    end.

Definition small_tree_args (subdir_max_depth : Z) : Namespace :=
  mkArgs small_tree 12 200 subdir_max_depth "text".

(** How often a name occurs in the header. *)
Definition occurrences (col : ustr) (columns : list ustr) : Z :=
  len (List.filter (fun c => bool_decide (c = col)) columns).

(** A row in which no header name holds a list: what [DictReader] builds. *)
Definition cells_only (row : gmap (option ustr) cell) : Prop :=
  forall k l, row !! Some k <> Some (Rest l).

(** [counts'] holds the keys of [counts], each count raised by at most
    [bound]. *)
Definition raised_by (bound : ustr -> Z) (counts counts' : gmap ustr Z) : Prop :=
  forall k,
    match counts !! k with
    | None => counts' !! k = None
    | Some c => exists c', counts' !! k = Some c' /\ c <= c' <= c + bound k
    end.

(** ** Example files *)

Definition NEWLINE : string := String (ascii_of_nat 10) EmptyString.

Definition text_file (components : list string) (content : string) : Path :=
  mkPath components (File (list_byte_of_string content)).

(** An ASCII literal as decoded text. *)
Definition ustr_of (s : string) : ustr := map Byte.to_N (list_byte_of_string s).

Fixpoint split_on (sep : N) (s : ustr) : list ustr :=
  match s with
  | [] => [[]]
  | c :: r =>
      if (c =? sep)%N then [] :: split_on sep r
      else match split_on sep r with
           | field :: fields => (c :: field) :: fields
           | [] => [[c]]
           end
  end.

(** [csv.reader] on text without quotes or carriage returns: one row for
    each line, the fields between commas, the empty row for an empty line. *)
Definition plain_csv_reader (text : ustr) : list (list ustr) :=
  let lines := split_on 10 text in
  let lines := match rev lines with [] :: r => rev r | _ => lines end in
  map (fun line => match line with [] => [] | _ => split_on 44 line end) lines.

(** Scenario A of the specification: three rows, two of them without a
    label (one holds a blank). *)
Definition scenario_A_csv : Path :=
  text_file ["data"; "a.csv"]
    ("id,label" +:+ NEWLINE +:+ "1," +:+ NEWLINE +:+ "2,x" +:+ NEWLINE +:+ "3, " +:+ NEWLINE).

(** A header that names the column [a] twice, and one row of empty cells. *)
Definition duplicate_header_csv : Path :=
  text_file ["data"; "dup.csv"] ("a,a" +:+ NEWLINE +:+ "," +:+ NEWLINE).

(** Two lines below the header, the first of them empty. *)
Definition blank_line_csv : Path :=
  text_file ["data"; "gap.csv"] ("a" +:+ NEWLINE +:+ NEWLINE +:+ "1" +:+ NEWLINE).

(** A file that is not UTF-8: the byte 0xFF stands in its second row. *)
Definition undecodable_csv : Path :=
  mkPath ["data"; "bad.csv"]
    (File [Byte.x6e; Byte.x0a; Byte.xff; Byte.x0a; Byte.x20; Byte.x0a]).

(** ** Example hosts and runs *)

(** A host without [pyarrow] and without the optional tools. *)
Definition bare_host : Host := mkHost None (fun _ => false).

(** A host whose [pyarrow] opens every file as two integer columns and
    fails while reading the sample. *)
Definition failing_host : Host :=
  mkHost (Some (fun _ => inr (mkParquetFile [("id", "int64"); ("label", "int64")]
                                (fun _ => inl "corrupt page"))))
         (fun tool => String.eqb tool "duckdb").

(** A first batch of three rows, two of them without a label. *)
Definition sampling_table : Table :=
  mkTable 3 ["id"; "label"]
    (fun column_name => if String.eqb column_name "label" then 2 else 0).

Definition sampling_file : ParquetFile :=
  mkParquetFile [("id", "int64"); ("label", "string")] (fun _ => inr (Some sampling_table)).

(** A host whose [pyarrow] opens every file as [sampling_file]. *)
Definition sampling_host : Host :=
  mkHost (Some (fun _ => inr sampling_file)) (fun _ => false).

(** Scenario C as a run with the default parameters. *)
Definition scenario_C_args : Namespace := mkArgs scenario_C 12 200 2 "text".

(** ** Reachability in the snapshot *)

(** [c] is an entry of the listable directory [q]. *)
Definition child_of (q c : Path) : Prop :=
  exists children, iterdir q = inr children /\ In c children.

(** [descends k s q]: [q] is reached from [s] through [k] listed
    subdirectories. *)
Inductive descends : nat -> Path -> Path -> Prop :=
| descends_here s : descends 0 s s
| descends_step k s c q :
    child_of s c -> is_dir c = true -> descends k c q -> descends (S k) s q.

(** Every directory of the snapshot names each of its entries once, as a
    real filesystem does. *)
Fixpoint unique_names (n : node) : bool :=
  match n with
  | Dir _ es =>
      bool_decide (NoDup (map fst es)) && forallb (fun e => unique_names (snd e)) es
  | _ => true
  end.

(** ** Cells of a CSV file, as a reader of the file sees them *)

(** The rows below the header that hold at least one cell. *)
Definition data_rows (body : list (list ustr)) : list (list ustr) :=
  List.filter (fun row => match row with [] => false | _ => true end) body.

(** The row has no cell at position [i], or a cell of white space only. *)
Definition blank_at (i : nat) (row : list ustr) : bool :=
  match row !! i with
  | None => true
  | Some s => bool_decide (strip s = EMPTY_CELL_VALUE)
  end.

(** What the inner loop decides for the column [k] of a [DictReader] row. *)
Definition cell_empty (row : gmap (option ustr) cell) (k : ustr) : bool :=
  match is_empty_cell (row !! Some k) with
  | inr b => b
  | inl _ => false
  end.

(** A level of directories at the same depth, no path twice. *)
Definition level_ok (n : nat) (level : list Path) : Prop :=
  NoDup (map parts level)
  /\ forall q, In q level -> unique_names (target q) = true /\ length (parts q) = n.

(** ** Reading back what the fallback commands quote *)

(** The text that a SQL string literal with the body [s] stands for: two
    quotes together are one quote, and a quote on its own would end the
    literal ([None]). *)
Fixpoint sql_literal_text (s : string) : option string :=
  match s with
  | EmptyString => Some EmptyString
  | String c r =>
      if Ascii.eqb c "'" then
        match r with
        | String c' r' =>
            if Ascii.eqb c' "'" then option_map (String "'") (sql_literal_text r') else None
        | EmptyString => None
        end
      else option_map (String c) (sql_literal_text r)
  end.

(** ** Arguments and reports *)

(** The arguments [validate_inputs] accepts. *)
Definition valid_args (args : Namespace) : Prop :=
  is_dir (args_dataset_root args) = true
  /\ 0 < args_max_files args
  /\ 0 < args_sample_rows args
  /\ 0 <= args_subdir_max_depth args.

(** The inspection [item] is the one of the file [p]: the inspector chosen
    by the suffix, and the path written into the summary. *)
Definition inspection_of (p : Path) (item : Inspection) : Prop :=
  match item with
  | CsvInspection summary =>
      lower (suffix p) = ".csv" /\ kind summary = "csv" /\ path summary = path_str p
  | ParquetInspection summary =>
      lower (suffix p) <> ".csv" /\ pq_kind summary = "parquet"
      /\ pq_path summary = path_str p
  end.

(** * Properties of discovery *)

(** ** Lists and budgets *)

Lemma len_app {A} (l k : list A) : len (l ++ k) = len l + len k.
Proof. unfold len; rewrite length_app; lia. Qed.

Lemma len_nonneg {A} (l : list A) : 0 <= len l.
Proof. unfold len; lia. Qed.

Lemma take_take_app {A} (n : nat) (l k : list A) :
  take n (take n l ++ k) = take n (l ++ k).
Proof.
  destruct (Nat.le_gt_cases n (length l)) as [Hle|Hgt].
  - rewrite (take_app_le l) by lia.
    rewrite take_app_le by (rewrite length_take; lia). apply take_idemp.
  - rewrite (take_ge l) by lia. reflexivity.
Qed.

(** ** The loops of the scan *)

Lemma enqueued_cons max_depth depth e r :
  enqueued max_depth depth (e :: r) =
  (if negb (is_tabular_file e) && (is_dir e && (depth <? max_depth))
   then [(e, depth + 1)] else []) ++ enqueued max_depth depth r.
Proof.
  unfold enqueued; simpl.
  destruct (negb (is_tabular_file e) && (is_dir e && (depth <? max_depth))); reflexivity.
Qed.

Lemma scan_entries_spec max_depth limit depth entries queue discovered :
  len discovered <= limit ->
  let st := scan_entries max_depth limit depth entries (queue, discovered) in
  snd st = take (Z.to_nat limit) (discovered ++ List.filter is_tabular_file entries)
  /\ (len (snd st) < limit -> fst st = queue ++ enqueued max_depth depth entries).
Proof.
  revert queue discovered.
  induction entries as [|e r IH]; intros queue discovered Hle; simpl.
  - rewrite app_nil_r. split.
    + symmetry; apply take_ge. unfold len in Hle; lia.
    + intros _. unfold enqueued; simpl. rewrite app_nil_r. reflexivity.
  - rewrite enqueued_cons.
    destruct (Z.leb_spec limit (len discovered)) as [Hfull|Hroom]; simpl.
    + split; [|lia]. unfold len in *.
      rewrite take_app_le by lia. symmetry; apply take_ge; lia.
    + destruct (is_tabular_file e) eqn:Htab; simpl.
      * destruct (IH queue (discovered ++ [e])) as [Hd Hq];
          [rewrite len_app; unfold len in *; simpl; lia|].
        split; [rewrite Hd, <- app_assoc; reflexivity | exact Hq].
      * destruct (is_dir e && (depth <? max_depth)) eqn:Hdir; simpl.
        -- destruct (IH (queue ++ [(e, depth + 1)]) discovered Hle) as [Hd Hq].
           split; [exact Hd|]. intros Hlt. rewrite (Hq Hlt), <- app_assoc. reflexivity.
        -- apply IH; exact Hle.
Qed.

Lemma scan_loop_nil max_depth limit discovered :
  scan_loop max_depth limit [] discovered = discovered.
Proof. simp scan_loop. reflexivity. Qed.

Lemma scan_loop_cons max_depth limit current_dir depth rest discovered :
  scan_loop max_depth limit ((current_dir, depth) :: rest) discovered =
  if len discovered <? limit then
    match iterdir current_dir with
    | inl _ => scan_loop max_depth limit rest discovered
    | inr entries =>
        let st := scan_entries max_depth limit depth (sorted_by_name entries) (rest, discovered) in
        scan_loop max_depth limit (fst st) (snd st)
    end
  else discovered.
Proof.
  simp scan_loop.
  destruct (len discovered <? limit); simpl; [|reflexivity].
  unfold with_eq. 
  destruct (iterdir current_dir); simpl; reflexivity.
Qed.

Lemma scan_loop_full max_depth limit queue discovered :
  limit <= len discovered -> scan_loop max_depth limit queue discovered = discovered.
Proof.
  intros H. destruct queue as [|[d k] rest].
  - apply scan_loop_nil.
  - rewrite scan_loop_cons. destruct (Z.ltb_spec (len discovered) limit); [lia|reflexivity].
Qed.

Lemma is_dir_not_tabular e : is_dir e = true -> is_tabular_file e = false.
Proof.
  unfold is_dir, is_tabular_file, is_file. destruct (target e); try discriminate; reflexivity.
Qed.

Lemma enqueued_paths max_depth depth entries :
  map fst (enqueued max_depth depth entries) =
  if depth <? max_depth then List.filter is_dir entries else [].
Proof.
  unfold enqueued. rewrite map_map; simpl. rewrite map_id.
  induction entries as [|e r IH]; simpl.
  - destruct (depth <? max_depth); reflexivity.
  - destruct (is_dir e) eqn:Hd; simpl.
    + rewrite (is_dir_not_tabular _ Hd); simpl.
      destruct (depth <? max_depth); simpl; [f_equal|]; exact IH.
    + rewrite andb_false_r. exact IH.
Qed.

(** One turn of the [while] loop: the tabular children of the directory at
    the head of the queue are recorded, up to the limit, and its
    subdirectories join the queue while the depth allows. *)
Lemma scan_loop_step max_depth limit x k rest discovered :
  len discovered <= limit ->
  scan_loop max_depth limit ((x, k) :: rest) discovered =
  if limit <=? len (discovered ++ tabular_children x)
  then take (Z.to_nat limit) (discovered ++ tabular_children x)
  else scan_loop max_depth limit (rest ++ enqueued max_depth k (listing x))
         (discovered ++ tabular_children x).
Proof.
  intros Hle. rewrite scan_loop_cons.
  unfold tabular_children, listing.
  destruct (Z.ltb_spec (len discovered) limit) as [Hroom|Hfull].
  - destruct (iterdir x) as [err|entries]; simpl.
    + rewrite !app_nil_r. destruct (Z.leb_spec limit (len discovered)); [lia|].
      reflexivity.
    + destruct (scan_entries_spec max_depth limit k (sorted_by_name entries) rest discovered Hle)
        as [Hd Hq]. simpl in Hd, Hq.
      set (tc := List.filter is_tabular_file (sorted_by_name entries)) in *.
      destruct (Z.leb_spec limit (len (discovered ++ tc))) as [Hreach|Hnot].
      * rewrite scan_loop_full; [exact Hd|].
        rewrite Hd. unfold len in *. rewrite length_take. lia.
      * assert (Hall : take (Z.to_nat limit) (discovered ++ tc) = discovered ++ tc)
          by (apply take_ge; unfold len in *; lia).
        rewrite Hall in Hd. rewrite Hq, Hd; [reflexivity|]. rewrite Hd. exact Hnot.
  - assert (Heq : len discovered = limit) by lia.
    destruct (Z.leb_spec limit (len (discovered ++ List.filter is_tabular_file
                 match iterdir x with inl _ => [] | inr c => sorted_by_name c end)))
      as [_|Hlt]; [|rewrite len_app in Hlt; pose proof (len_nonneg (List.filter is_tabular_file
                 match iterdir x with inl _ => [] | inr c => sorted_by_name c end)); lia].
    rewrite take_app_le by (unfold len in *; lia).
    symmetry; apply take_ge. unfold len in *; lia.
Qed.

Lemma level_order_unfold d level :
  level_order d level =
  flat_map tabular_children level ++ next_levels d (flat_map subdirectories level).
Proof. destruct d; reflexivity. Qed.

(** The loop invariant: the queue holds the rest of the current level
    ([a], with [r] levels still allowed below it) followed by the part of the
    next level gathered so far ([b]). *)
Lemma scan_loop_level_order max_depth limit r :
  forall a b discovered,
    Forall (fun item => Z.to_nat (max_depth - snd item) = r) a ->
    Forall (fun item => S (Z.to_nat (max_depth - snd item)) = r) b ->
    len discovered <= limit ->
    scan_loop max_depth limit (a ++ b) discovered =
    take (Z.to_nat limit)
      (discovered ++ flat_map tabular_children (map fst a) ++
       next_levels r (map fst b ++ flat_map subdirectories (map fst a))).
Proof.
  induction r as [|r' IHr].
  - induction a as [|[x k] a' IHa]; intros b discovered Ha Hb Hd.
    + destruct b as [|item b']; [|inversion Hb; lia].
      simpl. rewrite scan_loop_nil, app_nil_r. symmetry; apply take_ge. unfold len in Hd; lia.
    + inversion Ha as [|? ? Hk Ha']; subst. simpl in Hk.
      simpl. rewrite scan_loop_step by exact Hd.
      assert (Hnone : enqueued max_depth k (listing x) = []).
      { pose proof (enqueued_paths max_depth k (listing x)) as Hp.
        destruct (Z.ltb_spec k max_depth); [lia|].
        destruct (enqueued max_depth k (listing x)); [reflexivity|discriminate]. }
      rewrite Hnone, !app_nil_r.
      destruct (Z.leb_spec limit (len (discovered ++ tabular_children x))) as [Hreach|Hnot].
      * rewrite app_assoc.
        rewrite (take_app_le (discovered ++ tabular_children x)) by (unfold len in *; lia).
        reflexivity.
      * specialize (IHa b (discovered ++ tabular_children x) Ha' Hb ltac:(lia)).
        simpl in IHa. rewrite IHa, !app_nil_r, <- !app_assoc. reflexivity.
  - induction a as [|[x k] a' IHa]; intros b discovered Ha Hb Hd.
    + simpl. rewrite app_nil_r.
      specialize (IHr b [] discovered).
      rewrite app_nil_r in IHr. rewrite IHr; [| |constructor|exact Hd].
      * rewrite level_order_unfold. reflexivity.
      * eapply Forall_impl; [exact Hb|]. simpl. intros; lia.
    + inversion Ha as [|? ? Hk Ha']; subst. simpl in Hk.
      simpl. rewrite scan_loop_step by exact Hd.
      rewrite <- (app_assoc (tabular_children x)), (app_assoc discovered).
      destruct (Z.leb_spec limit (len (discovered ++ tabular_children x))) as [Hreach|Hnot].
      * rewrite (take_app_le (discovered ++ tabular_children x)) by (unfold len in *; lia).
        reflexivity.
      * rewrite <- (app_assoc a').
        rewrite (IHa (b ++ enqueued max_depth k (listing x)) (discovered ++ tabular_children x));
          [| exact Ha' | | lia].
        -- rewrite map_app, enqueued_paths.
           destruct (Z.ltb_spec k max_depth); [|lia].
           unfold subdirectories. rewrite <- !app_assoc. reflexivity.
        -- apply Forall_app; split; [exact Hb|].
           unfold enqueued. apply Forall_map. apply Forall_forall. simpl. intros; lia.
Qed.

Theorem bounded_scan_directory_level_order root max_depth limit :
  bounded_scan_directory root max_depth limit =
  take (Z.to_nat limit) (level_order (Z.to_nat max_depth) [root]).
Proof.
  unfold bounded_scan_directory.
  destruct (Z.leb_spec limit 0) as [Hle|Hpos].
  - replace (Z.to_nat limit) with 0%nat by lia. reflexivity.
  - pose proof (scan_loop_level_order max_depth limit (Z.to_nat max_depth) [(root, 0)] [] []) as H.
    simpl in H. rewrite H.
    + rewrite level_order_unfold. simpl. rewrite !app_nil_r. reflexivity.
    + constructor; [simpl; f_equal; lia | constructor].
    + constructor.
    + unfold len; simpl; lia.
Qed.

(** ** The two phases of discovery *)

Lemma scan_subdirs_spec max_files subdir_max_depth dirs discovered :
  len discovered <= max_files ->
  scan_subdirs max_files subdir_max_depth dirs (discovered, max_files - len discovered) =
  let found :=
    take (Z.to_nat max_files)
      (discovered ++
       flat_map (fun subdir => level_order (Z.to_nat subdir_max_depth) [subdir]) dirs) in
  (found, max_files - len found).
Proof.
  revert discovered.
  induction dirs as [|s rest IH]; intros discovered Hle; simpl.
  - rewrite app_nil_r, take_ge by (unfold len in Hle; lia). reflexivity.
  - destruct (Z.leb_spec (max_files - len discovered) 0) as [Hfull|Hroom].
    + rewrite take_app_le by (unfold len in *; lia).
      rewrite take_ge by (unfold len in *; lia). reflexivity.
    + rewrite bounded_scan_directory_level_order.
      set (lo := level_order (Z.to_nat subdir_max_depth) [s]).
      assert (Hstep : discovered ++ take (Z.to_nat (max_files - len discovered)) lo =
                      take (Z.to_nat max_files) (discovered ++ lo)).
      { rewrite take_app. rewrite (take_ge discovered) by (unfold len in *; lia).
        replace (Z.to_nat max_files - length discovered)%nat
          with (Z.to_nat (max_files - len discovered)) by (unfold len; lia).
        reflexivity. }
      rewrite Hstep, IH.
      * simpl. rewrite take_take_app, <- app_assoc. reflexivity.
      * unfold len in *. rewrite length_take. lia.
Qed.

Lemma list_root_tabular_files_listing dataset_root root_files :
  list_root_tabular_files dataset_root = inr root_files ->
  root_files = tabular_children dataset_root.
Proof.
  unfold list_root_tabular_files, tabular_children, listing.
  destruct (iterdir dataset_root); [discriminate|]. intros [= <-]. reflexivity.
Qed.

Lemma slice_to_nonneg {A} (l : list A) (n : Z) :
  0 <= n -> slice_to l n = take (Z.to_nat n) l.
Proof. intros H. unfold slice_to. destruct (Z.leb_spec 0 n); [reflexivity|lia]. Qed.

(** Discovery returns the first [max_files] candidates of the order the
    specification describes. *)
Lemma discover_tabular_files_order dataset_root max_files subdir_max_depth files warnings :
  0 <= max_files ->
  discover_tabular_files dataset_root max_files subdir_max_depth = inr (files, warnings) ->
  files = take (Z.to_nat max_files) (discovery_order dataset_root subdir_max_depth).
Proof.
  intros Hmf. unfold discover_tabular_files, discovery_order.
  destruct (list_root_tabular_files dataset_root) as [e|root_files] eqn:Hroot; [discriminate|].
  apply list_root_tabular_files_listing in Hroot. subst root_files.
  set (rf := tabular_children dataset_root).
  destruct (Z.leb_spec max_files (len rf)) as [Hfull|Hroom].
  - intros [= <- <-]. rewrite slice_to_nonneg by exact Hmf.
    rewrite take_app_le by (unfold len in *; lia). reflexivity.
  - destruct (list_allowlisted_directories dataset_root) as [|s dirs] eqn:Hdirs.
    + intros [= <- <-]. simpl. rewrite app_nil_r.
      symmetry; apply take_ge. unfold len in *; lia.
    + rewrite scan_subdirs_spec by lia. simpl. intros [= <- <-]. reflexivity.
Qed.

(** A readable dataset root always gets an answer. *)
Lemma discover_tabular_files_returns dataset_root max_files subdir_max_depth children :
  iterdir dataset_root = inr children ->
  exists files warnings,
    discover_tabular_files dataset_root max_files subdir_max_depth = inr (files, warnings).
Proof.
  intros Hls. unfold discover_tabular_files, list_root_tabular_files. rewrite Hls.
  destruct (max_files <=? _); [eauto|].
  destruct (list_allowlisted_directories dataset_root); [eauto|].
  destruct (scan_subdirs _ _ _ _); eauto.
Qed.

(** ** Name order *)

Lemma string_compare_trans s1 : forall s2 s3,
  String.compare s1 s2 <> Gt -> String.compare s2 s3 <> Gt -> String.compare s1 s3 <> Gt.
Proof.
  induction s1 as [|a s1 IH]; intros [|b s2] [|c s3]; simpl; try congruence.
  unfold Ascii.compare.
  destruct (N.compare_spec (N_of_ascii a) (N_of_ascii b)) as [Hab|Hab|Hab];
    destruct (N.compare_spec (N_of_ascii b) (N_of_ascii c)) as [Hbc|Hbc|Hbc];
    destruct (N.compare_spec (N_of_ascii a) (N_of_ascii c)) as [Hac|Hac|Hac];
    try congruence; try lia.
  apply IH.
Qed.

Lemma name_le_trans p q r : name_le p q -> name_le q r -> name_le p r.
Proof.
  unfold name_le, String.leb. intros Hpq Hqr.
  pose proof (string_compare_trans (name p) (name q) (name r)) as H.
  destruct (String.compare (name p) (name q)); try discriminate;
    destruct (String.compare (name q) (name r)); try discriminate;
    destruct (String.compare (name p) (name r)); try reflexivity;
    exfalso; apply H; congruence.
Qed.

Lemma name_le_total p q : name_le p q \/ name_le q p.
Proof. apply String.leb_total. Qed.

Lemma insert_by_name_Permutation x l : Permutation (insert_by_name x l) (x :: l).
Proof.
  induction l as [|y r IH]; simpl; [reflexivity|].
  destruct (String.leb (name x) (name y)); [reflexivity|].
  rewrite IH. apply perm_swap.
Qed.

Lemma sorted_by_name_Permutation l : Permutation (sorted_by_name l) l.
Proof.
  induction l as [|x r IH]; simpl; [reflexivity|].
  rewrite insert_by_name_Permutation, IH. reflexivity.
Qed.

Lemma insert_by_name_StronglySorted x l :
  StronglySorted name_le l -> StronglySorted name_le (insert_by_name x l).
Proof.
  induction 1 as [|y r Hr IH Hy]; simpl.
  - repeat constructor.
  - destruct (String.leb (name x) (name y)) eqn:Hxy.
    + constructor; [constructor; assumption|].
      constructor; [exact Hxy|].
      eapply Forall_impl; [exact Hy|]. intros z Hz. eapply name_le_trans; eassumption.
    + constructor; [exact IH|].
      apply List.Forall_forall. intros z Hz.
      apply (Permutation_in _ (insert_by_name_Permutation x r)) in Hz.
      destruct Hz as [<-|Hz].
      * destruct (name_le_total x y) as [H|H]; [unfold name_le in H; congruence|exact H].
      * revert z Hz. apply List.Forall_forall. exact Hy.
Qed.

Lemma sorted_by_name_StronglySorted l : StronglySorted name_le (sorted_by_name l).
Proof.
  induction l as [|x r IH]; simpl; [constructor|].
  apply insert_by_name_StronglySorted, IH.
Qed.

Lemma StronglySorted_filter_bool {A} (R : A -> A -> Prop) (f : A -> bool) l :
  StronglySorted R l -> StronglySorted R (List.filter f l).
Proof.
  induction 1 as [|x r Hr IH Hx]; simpl; [constructor|].
  destruct (f x); [|exact IH].
  constructor; [exact IH|].
  apply List.Forall_forall. intros y Hy. apply filter_In in Hy as [Hy _].
  revert y Hy. apply List.Forall_forall. exact Hx.
Qed.

Lemma listing_sorted p : StronglySorted name_le (listing p).
Proof.
  unfold listing. destruct (iterdir p); [constructor|apply sorted_by_name_StronglySorted].
Qed.

(** ** Where the candidates lie *)

Lemma listing_parts p e : In e (listing p) -> exists n, parts e = parts p ++ [n].
Proof.
  unfold listing, iterdir.
  destruct (target p) as [|[] es| |]; simpl; try tauto.
  intros He. apply (Permutation_in _ (sorted_by_name_Permutation _)) in He.
  apply in_map_iff in He as [[n t] [<- _]]. exists n. reflexivity.
Qed.

Lemma tabular_children_parts p e :
  In e (tabular_children p) -> exists n, parts e = parts p ++ [n].
Proof. intros H. apply filter_In in H as [H _]. eapply listing_parts, H. Qed.

Lemma subdirectories_parts p e :
  In e (subdirectories p) -> exists n, parts e = parts p ++ [n].
Proof. intros H. apply filter_In in H as [H _]. eapply listing_parts, H. Qed.

(** A file of [level_order d level] lies under one directory of [level], at
    most [d] directories further down. *)
Lemma level_order_parts d : forall level e,
  In e (level_order d level) ->
  exists s rel, In s level /\ parts e = parts s ++ rel
                /\ (1 <= length rel <= d + 1)%nat.
Proof.
  induction d as [|d IH]; intros level e He; simpl in He; apply in_app_or in He as [He|He].
  - apply in_flat_map in He as [s [Hs He]].
    apply tabular_children_parts in He as [n Hn].
    exists s, [n]. simpl. repeat split; auto.
  - destruct He.
  - apply in_flat_map in He as [s [Hs He]].
    apply tabular_children_parts in He as [n Hn].
    exists s, [n]. simpl. repeat split; auto; lia.
  - apply IH in He as [s' [rel [Hs' [Hparts Hlen]]]].
    apply in_flat_map in Hs' as [s [Hs Hsub]].
    apply subdirectories_parts in Hsub as [n Hn].
    exists s, (n :: rel). rewrite Hparts, Hn, <- app_assoc. simpl.
    repeat split; auto; lia.
Qed.

Lemma list_allowlisted_directories_parts dataset_root s :
  In s (list_allowlisted_directories dataset_root) ->
  exists n, In n ALLOWED_SUBDIRECTORIES /\ parts s = parts dataset_root ++ [n]
            /\ is_dir s = true.
Proof.
  unfold list_allowlisted_directories. intros H.
  apply filter_In in H as [H Hdir]. apply in_map_iff in H as [n [<- Hn]].
  exists n. auto.
Qed.

Lemma name_joinpath p n : name (joinpath p n) = n.
Proof. unfold name, joinpath; simpl. apply last_last. Qed.

Lemma allowlisted_names_sublist dataset_root (names : list string) :
  sublist (map name (List.filter is_dir (map (joinpath dataset_root) names))) names.
Proof.
  induction names as [|n r IH]; simpl; [constructor|].
  destruct (is_dir (joinpath dataset_root n)); simpl.
  - rewrite name_joinpath. constructor. exact IH.
  - constructor. exact IH.
Qed.

(** ** The claims about discovery *)

(** C1.  Whatever the tree, with a budget [max_files] that is not negative
    (in particular [max_files >= 1], for any depth bound), discovery either
    returns at most [max_files] candidates, or the listing of the dataset
    root itself raised [OSError] and nothing is returned. *)
Theorem discover_at_most_max_files dataset_root max_files subdir_max_depth :
  0 <= max_files ->
  match discover_tabular_files dataset_root max_files subdir_max_depth with
  | inr (files, _) => len files <= max_files
  | inl e => e = OSError /\ iterdir dataset_root = inl OSError
  end.
Proof.
  intros Hmf.
  destruct (discover_tabular_files dataset_root max_files subdir_max_depth)
    as [e|[files warnings]] eqn:Hrun.
  - unfold discover_tabular_files, list_root_tabular_files in Hrun.
    destruct (iterdir dataset_root) as [e'|children] eqn:Hls.
    + injection Hrun as <-. unfold iterdir in Hls.
      destruct (target dataset_root) as [|[] ?| |]; inversion Hls; auto.
    + destruct (max_files <=? _); [discriminate|].
      destruct (list_allowlisted_directories dataset_root); [discriminate|].
      destruct (scan_subdirs _ _ _ _); discriminate.
  - rewrite (discover_tabular_files_order _ _ _ _ _ Hmf Hrun).
    unfold len. rewrite length_take. lia.
Qed.

Lemma discover_at_most_max_files_witness :
  0 <= 3
  /\ match discover_tabular_files small_tree 3 1 with
     | inr (files, _) => len files <= 3
     | inl e => e = OSError /\ iterdir small_tree = inl OSError
     end.
Proof. split; [lia | apply (discover_at_most_max_files small_tree 3 1); lia]. Defined.

Example small_tree_budget_3 :
  discover_tabular_files small_tree 3 1 =
  inr ([file_at ["data"; "a.CSV"]; file_at ["data"; "b.csv"];
        file_at ["data"; "train"; "a.csv"]],
       [max_files_reached 3]).
Proof. vm_compute. reflexivity. Qed.

(** C4.  A discovered file is either a direct child of the dataset root or
    lies inside an allowlisted subdirectory, at most [subdir_max_depth]
    directories below that subdirectory: its path below the subdirectory
    ([rel], the file name included) has at most [subdir_max_depth + 1]
    components. *)
Theorem discovered_within_depth dataset_root max_files subdir_max_depth files warnings p :
  0 <= max_files -> 0 <= subdir_max_depth ->
  discover_tabular_files dataset_root max_files subdir_max_depth = inr (files, warnings) ->
  In p files ->
  (exists n, parts p = parts dataset_root ++ [n])
  \/ (exists subdir rel,
        In subdir ALLOWED_SUBDIRECTORIES
        /\ parts p = parts dataset_root ++ subdir :: rel
        /\ 1 <= len rel /\ len rel - 1 <= subdir_max_depth).
Proof.
  intros Hmf Hd Hrun Hp.
  rewrite (discover_tabular_files_order _ _ _ _ _ Hmf Hrun) in Hp.
  apply list_elem_of_In, elem_of_take in Hp as [i [Hp _]].
  apply list_elem_of_lookup_2, list_elem_of_In in Hp.
  unfold discovery_order in Hp. apply in_app_or in Hp as [Hp|Hp].
  - left. apply tabular_children_parts, Hp.
  - right. apply in_flat_map in Hp as [s [Hs Hp]].
    apply list_allowlisted_directories_parts in Hs as [n [Hn [Hparts _]]].
    apply level_order_parts in Hp as [s' [rel [Hs' [Hrel Hlen]]]].
    destruct Hs' as [<-|[]].
    exists n, rel. rewrite Hrel, Hparts, <- app_assoc. simpl.
    unfold len. repeat split; auto; lia.
Qed.

Example small_tree_depth_1 :
  discover_tabular_files small_tree 12 1 =
  inr ([file_at ["data"; "a.CSV"]; file_at ["data"; "b.csv"];
        file_at ["data"; "train"; "a.csv"]; file_at ["data"; "train"; "z.parquet"];
        file_at ["data"; "train"; "sub"; "q.csv"]], []).
Proof. vm_compute. reflexivity. Qed.

Lemma discovered_within_depth_witness :
  0 <= 12 /\ 0 <= 1
  /\ In (file_at ["data"; "train"; "sub"; "q.csv"])
        [file_at ["data"; "a.CSV"]; file_at ["data"; "b.csv"];
         file_at ["data"; "train"; "a.csv"]; file_at ["data"; "train"; "z.parquet"];
         file_at ["data"; "train"; "sub"; "q.csv"]]
  /\ ((exists n, ["data"; "train"; "sub"; "q.csv"] = ["data"] ++ [n])
      \/ (exists subdir rel,
            In subdir ALLOWED_SUBDIRECTORIES
            /\ ["data"; "train"; "sub"; "q.csv"] = ["data"] ++ subdir :: rel
            /\ 1 <= len rel /\ len rel - 1 <= 1)).
Proof.
  assert (H0 : 0 <= 12) by lia.
  assert (H1 : 0 <= 1) by lia.
  assert (Hin : In (file_at ["data"; "train"; "sub"; "q.csv"])
        [file_at ["data"; "a.CSV"]; file_at ["data"; "b.csv"];
         file_at ["data"; "train"; "a.csv"]; file_at ["data"; "train"; "z.parquet"];
         file_at ["data"; "train"; "sub"; "q.csv"]]) by (simpl; tauto).
  exact (conj H0 (conj H1 (conj Hin
    (discovered_within_depth small_tree 12 1 _ _ _ H0 H1 small_tree_depth_1 Hin)))).
Defined.

(** Scenario D: with depth bound 2 the file three directories below [train]
    is not found, nothing is raised, and the run reports that it found
    nothing. *)
Example scenario_D_depth_2 :
  discover_tabular_files scenario_D 12 2 = inr ([], [no_tabular_files_found]).
Proof. vm_compute. reflexivity. Qed.

Example scenario_D_depth_3 :
  discover_tabular_files scenario_D 12 3 =
  inr ([file_at ["data"; "train"; "a"; "b"; "c"; "deep.csv"]], []).
Proof. vm_compute. reflexivity. Qed.

(** C6.  The candidates are the first [max_files] paths of
    [discovery_order]: the tabular files of the root in name order, then,
    for each allowlisted subdirectory that exists, in the order of
    [ALLOWED_SUBDIRECTORIES], its files level by level ([level_order]), the
    children of every directory in name order.  Every listing is a sorted
    permutation of what the directory holds, so the order depends on the
    snapshot alone. *)
Theorem discover_order_deterministic dataset_root max_files subdir_max_depth files warnings :
  0 <= max_files ->
  discover_tabular_files dataset_root max_files subdir_max_depth = inr (files, warnings) ->
  files = take (Z.to_nat max_files)
            (tabular_children dataset_root ++
             flat_map (fun subdir => level_order (Z.to_nat subdir_max_depth) [subdir])
                      (list_allowlisted_directories dataset_root))
  /\ (forall p, StronglySorted name_le (listing p)
                /\ StronglySorted name_le (tabular_children p)
                /\ StronglySorted name_le (subdirectories p)
                /\ forall children, iterdir p = inr children ->
                                    Permutation (listing p) children)
  /\ sublist (map name (list_allowlisted_directories dataset_root)) ALLOWED_SUBDIRECTORIES
  /\ (forall p, In p (tabular_children dataset_root) ->
                exists n, parts p = parts dataset_root ++ [n])
  /\ (forall subdir p,
        In subdir (list_allowlisted_directories dataset_root) ->
        In p (level_order (Z.to_nat subdir_max_depth) [subdir]) ->
        exists rel, rel <> [] /\ parts p = parts dataset_root ++ name subdir :: rel).
Proof.
  intros Hmf Hrun. split; [|split; [|split; [|split]]].
  - exact (discover_tabular_files_order _ _ _ _ _ Hmf Hrun).
  - intros p. pose proof (listing_sorted p) as Hs. repeat split.
    + exact Hs.
    + apply StronglySorted_filter_bool, Hs.
    + apply StronglySorted_filter_bool, Hs.
    + intros children Hls. unfold listing. rewrite Hls. apply sorted_by_name_Permutation.
  - apply allowlisted_names_sublist.
  - intros p. apply tabular_children_parts.
  - intros subdir p Hs Hp.
    apply list_allowlisted_directories_parts in Hs as [n [_ [Hparts _]]].
    apply level_order_parts in Hp as [s [rel [[<-|[]] [Hrel Hlen]]]].
    exists rel. split; [destruct rel; simpl in Hlen; [lia|discriminate]|].
    unfold name. rewrite Hrel, Hparts, last_last, <- app_assoc. reflexivity.
Qed.

Lemma discover_order_deterministic_witness :
  0 <= 12
  /\ [file_at ["data"; "a.CSV"]; file_at ["data"; "b.csv"];
      file_at ["data"; "train"; "a.csv"]; file_at ["data"; "train"; "z.parquet"];
      file_at ["data"; "train"; "sub"; "q.csv"]] =
     take (Z.to_nat 12)
       (tabular_children small_tree ++
        flat_map (fun subdir => level_order (Z.to_nat 1) [subdir])
                 (list_allowlisted_directories small_tree)).
Proof.
  split; [lia|].
  apply (discover_order_deterministic small_tree 12 1 _ [] ltac:(lia) small_tree_depth_1).
Defined.

(** C8.  When the root holds fewer than [max_files] tabular files and no
    name of the allowlist is a directory under it, discovery returns the
    root files as they are, with the single warning [no_allowlisted_dirs]
    (also when there is no file at all). *)
Theorem discover_without_allowlisted_dirs dataset_root max_files subdir_max_depth root_files :
  list_root_tabular_files dataset_root = inr root_files ->
  len root_files < max_files ->
  (forall n, In n ALLOWED_SUBDIRECTORIES -> is_dir (joinpath dataset_root n) = false) ->
  discover_tabular_files dataset_root max_files subdir_max_depth =
  inr (root_files, [no_allowlisted_dirs]).
Proof.
  intros Hroot Hlt Hnone. unfold discover_tabular_files. rewrite Hroot.
  destruct (Z.leb_spec max_files (len root_files)); [lia|].
  assert (Hdirs : list_allowlisted_directories dataset_root = []).
  { unfold list_allowlisted_directories.
    induction ALLOWED_SUBDIRECTORIES as [|n r IH]; simpl; [reflexivity|].
    rewrite (Hnone n) by (left; reflexivity). apply IH.
    intros m Hm. apply Hnone. right. exact Hm. }
  rewrite Hdirs. reflexivity.
Qed.

Lemma discover_without_allowlisted_dirs_witness :
  list_root_tabular_files scenario_B = inr []
  /\ len (@nil Path) < 12
  /\ discover_tabular_files scenario_B 12 2 = inr ([], [no_allowlisted_dirs]).
Proof.
  assert (H0 : list_root_tabular_files scenario_B = inr []) by (vm_compute; reflexivity).
  assert (H1 : len (@nil Path) < 12) by (vm_compute; reflexivity).
  refine (conj H0 (conj H1 (discover_without_allowlisted_dirs scenario_B 12 2 [] H0 H1 _))).
  intros n Hn. simpl in Hn.
  repeat (destruct Hn as [<-|Hn]; [vm_compute; reflexivity|]). destruct Hn.
Defined.

(** C10.  With [subdir_max_depth = 0] validation warns that only root-level
    files are inspected, yet discovery still returns the tabular files that
    are direct children of the allowlisted subdirectories, after those of
    the root and as far as the budget reaches; only deeper levels are left
    out. *)
Theorem depth_zero_scans_allowlisted_children args dataset_root input_warnings files warnings :
  validate_inputs args = inr (dataset_root, input_warnings) ->
  args_subdir_max_depth args = 0 ->
  discover_tabular_files dataset_root (args_max_files args) (args_subdir_max_depth args)
    = inr (files, warnings) ->
  input_warnings = [subdir_scan_disabled]
  /\ files = take (Z.to_nat (args_max_files args))
               (tabular_children dataset_root ++
                flat_map tabular_children (list_allowlisted_directories dataset_root))
  /\ (len (tabular_children dataset_root ++
           flat_map tabular_children (list_allowlisted_directories dataset_root))
        <= args_max_files args ->
      forall subdir f,
        In subdir (list_allowlisted_directories dataset_root) ->
        In f (tabular_children subdir) -> In f files).
Proof.
  intros Hval Hd Hrun.
  assert (Hmf : 0 <= args_max_files args /\ input_warnings = [subdir_scan_disabled]).
  { unfold validate_inputs in Hval.
    destruct (negb (exists_ _)); [discriminate|].
    destruct (negb (is_dir _)); [discriminate|].
    destruct (Z.leb_spec (args_max_files args) 0); [discriminate|].
    destruct (args_sample_rows args <=? 0); [discriminate|].
    destruct (args_subdir_max_depth args <? 0); [discriminate|].
    rewrite Hd in Hval. simpl in Hval. injection Hval as _ <-. split; [lia|reflexivity]. }
  destruct Hmf as [Hmf Hw].
  pose proof (discover_tabular_files_order _ _ _ _ _ Hmf Hrun) as Hfiles.
  rewrite Hd in Hfiles. unfold discovery_order in Hfiles.
  rewrite (flat_map_ext _ tabular_children) in Hfiles
    by (intros s; simpl; rewrite !app_nil_r; reflexivity).
  split; [exact Hw|]. split; [exact Hfiles|].
  intros Hbudget subdir f Hs Hf. rewrite Hfiles.
  rewrite take_ge by (unfold len in Hbudget; lia).
  apply in_or_app. right. apply in_flat_map. exists subdir. auto.
Qed.

Lemma depth_zero_scans_allowlisted_children_witness :
  validate_inputs (small_tree_args 0) = inr (small_tree, [subdir_scan_disabled])
  /\ args_subdir_max_depth (small_tree_args 0) = 0
  /\ discover_tabular_files small_tree 12 0 =
       inr ([file_at ["data"; "a.CSV"]; file_at ["data"; "b.csv"];
             file_at ["data"; "train"; "a.csv"]; file_at ["data"; "train"; "z.parquet"]], [])
  /\ In (file_at ["data"; "train"; "a.csv"])
        [file_at ["data"; "a.CSV"]; file_at ["data"; "b.csv"];
         file_at ["data"; "train"; "a.csv"]; file_at ["data"; "train"; "z.parquet"]].
Proof.
  assert (H1 : validate_inputs (small_tree_args 0) = inr (small_tree, [subdir_scan_disabled]))
    by (vm_compute; reflexivity).
  assert (H2 : args_subdir_max_depth (small_tree_args 0) = 0) by reflexivity.
  assert (H3 : discover_tabular_files small_tree 12 0 =
       inr ([file_at ["data"; "a.CSV"]; file_at ["data"; "b.csv"];
             file_at ["data"; "train"; "a.csv"]; file_at ["data"; "train"; "z.parquet"]], []))
    by (vm_compute; reflexivity).
  refine (conj H1 (conj H2 (conj H3 _))).
  destruct (depth_zero_scans_allowlisted_children (small_tree_args 0) _ _ _ _ H1 H2 H3)
    as [_ [_ Hin]].
  apply (Hin ltac:(vm_compute; discriminate) (joinpath small_tree "train")).
  - vm_compute. left. reflexivity.
  - vm_compute. left. reflexivity.
Defined.

(** ** Directories that cannot be listed *)

Lemma as_empty_path_kind p :
  name (as_empty_path p) = name p
  /\ is_file (as_empty_path p) = is_file p
  /\ is_dir (as_empty_path p) = is_dir p
  /\ is_tabular_file (as_empty_path p) = is_tabular_file p.
Proof.
  unfold is_tabular_file, suffix, is_file, is_dir, name, as_empty_path; simpl.
  destruct (target p) as [|[] ?| |]; simpl; auto.
Qed.

Lemma as_empty_path_tabular p : is_tabular_file p = true -> as_empty_path p = p.
Proof.
  unfold is_tabular_file, is_file, as_empty_path. destruct p as [ps t]; simpl.
  destruct t; simpl; try discriminate. reflexivity.
Qed.

Lemma insert_by_name_as_empty x l :
  insert_by_name (as_empty_path x) (map as_empty_path l) =
  map as_empty_path (insert_by_name x l).
Proof.
  induction l as [|y r IH]; simpl; [reflexivity|].
  destruct (as_empty_path_kind x) as [-> _]. destruct (as_empty_path_kind y) as [-> _].
  destruct (String.leb (name x) (name y)); simpl; [reflexivity|]. rewrite IH. reflexivity.
Qed.

Lemma sorted_by_name_as_empty l :
  sorted_by_name (map as_empty_path l) = map as_empty_path (sorted_by_name l).
Proof.
  induction l as [|x r IH]; simpl; [reflexivity|].
  rewrite IH. apply insert_by_name_as_empty.
Qed.

Lemma listing_as_empty p : listing (as_empty_path p) = map as_empty_path (listing p).
Proof.
  unfold listing, iterdir, as_empty_path; simpl.
  destruct (target p) as [|[] es| |]; simpl; try reflexivity.
  rewrite <- sorted_by_name_as_empty, !map_map. reflexivity.
Qed.

Lemma filter_tabular_as_empty l :
  List.filter is_tabular_file (map as_empty_path l) = List.filter is_tabular_file l.
Proof.
  induction l as [|x r IH]; simpl; [reflexivity|].
  destruct (as_empty_path_kind x) as [_ [_ [_ ->]]].
  destruct (is_tabular_file x) eqn:Hx; [|exact IH].
  rewrite IH, (as_empty_path_tabular x Hx). reflexivity.
Qed.

Lemma filter_dir_as_empty l :
  List.filter is_dir (map as_empty_path l) = map as_empty_path (List.filter is_dir l).
Proof.
  induction l as [|x r IH]; simpl; [reflexivity|].
  destruct (as_empty_path_kind x) as [_ [_ [-> _]]].
  destruct (is_dir x); simpl; rewrite IH; reflexivity.
Qed.

Lemma level_order_as_empty d : forall level,
  level_order d (map as_empty_path level) = level_order d level.
Proof.
  assert (Htab : forall level,
            flat_map tabular_children (map as_empty_path level) =
            flat_map tabular_children level).
  { induction level as [|p r IH]; simpl; [reflexivity|].
    rewrite IH. unfold tabular_children at 1.
    rewrite listing_as_empty, filter_tabular_as_empty. reflexivity. }
  assert (Hsub : forall level,
            flat_map subdirectories (map as_empty_path level) =
            map as_empty_path (flat_map subdirectories level)).
  { induction level as [|p r IH]; simpl; [reflexivity|].
    rewrite IH, map_app. unfold subdirectories at 1.
    rewrite listing_as_empty, filter_dir_as_empty. reflexivity. }
  induction d as [|d IH]; intros level; simpl; rewrite Htab; [reflexivity|].
  rewrite Hsub, IH. reflexivity.
Qed.

Lemma bounded_scan_directory_as_empty root max_depth limit :
  bounded_scan_directory (as_empty_path root) max_depth limit =
  bounded_scan_directory root max_depth limit.
Proof.
  rewrite !bounded_scan_directory_level_order.
  change [as_empty_path root] with (map as_empty_path [root]).
  rewrite level_order_as_empty. reflexivity.
Qed.

Lemma scan_subdirs_as_empty max_files subdir_max_depth dirs : forall st,
  scan_subdirs max_files subdir_max_depth (map as_empty_path dirs) st =
  scan_subdirs max_files subdir_max_depth dirs st.
Proof.
  induction dirs as [|s r IH]; intros [discovered remaining]; simpl; [reflexivity|].
  destruct (remaining <=? 0); [reflexivity|].
  rewrite bounded_scan_directory_as_empty. apply IH.
Qed.

Lemma lookup_entry_as_empty n es :
  lookup_entry n (map (fun e => (fst e, as_empty (snd e))) es) = as_empty (lookup_entry n es).
Proof.
  induction es as [|[m t] r IH]; simpl; [reflexivity|].
  destruct (String.eqb m n); [reflexivity|exact IH].
Qed.

Lemma list_allowlisted_directories_as_empty dataset_root :
  list_allowlisted_directories (unlistable_as_empty dataset_root) =
  map as_empty_path (list_allowlisted_directories dataset_root).
Proof.
  unfold list_allowlisted_directories.
  rewrite <- filter_dir_as_empty, map_map. f_equal.
  apply map_ext. intros n. unfold joinpath, unlistable_as_empty, as_empty_path; simpl.
  destruct (target dataset_root); simpl; try reflexivity.
  rewrite lookup_entry_as_empty. reflexivity.
Qed.

Lemma list_root_tabular_files_as_empty dataset_root :
  list_root_tabular_files (unlistable_as_empty dataset_root) =
  list_root_tabular_files dataset_root.
Proof.
  unfold list_root_tabular_files, iterdir, unlistable_as_empty; simpl.
  destruct (target dataset_root) as [|[] es| |]; simpl; try reflexivity.
  replace (map (fun e => mkPath (parts dataset_root ++ [fst e]) (snd e))
             (map (fun e => (fst e, as_empty (snd e))) es))
    with (map as_empty_path (map (fun e => mkPath (parts dataset_root ++ [fst e]) (snd e)) es))
    by (rewrite !map_map; reflexivity).
  rewrite sorted_by_name_as_empty, filter_tabular_as_empty. reflexivity.
Qed.

(** C9.  A directory whose listing raises [OSError] is skipped by the loop,
    which goes on with the rest of the queue; and for discovery as a whole
    such a directory below the root is indistinguishable from an empty one:
    the same files and the same warnings, so the failure adds no warning
    and raises nothing ([bounded_scan_directory] is a total function). *)
Theorem unlistable_directory_is_skipped :
  (forall max_depth limit current_dir depth rest discovered,
      iterdir current_dir = inl OSError ->
      scan_loop max_depth limit ((current_dir, depth) :: rest) discovered =
      scan_loop max_depth limit rest discovered)
  /\ (forall root max_depth limit,
        bounded_scan_directory (as_empty_path root) max_depth limit =
        bounded_scan_directory root max_depth limit)
  /\ (forall dataset_root max_files subdir_max_depth,
        discover_tabular_files (unlistable_as_empty dataset_root) max_files subdir_max_depth =
        discover_tabular_files dataset_root max_files subdir_max_depth).
Proof.
  split; [|split].
  - intros max_depth limit current_dir depth rest discovered Hls.
    rewrite scan_loop_cons, Hls.
    destruct (Z.ltb_spec (len discovered) limit); [reflexivity|].
    symmetry. apply scan_loop_full. lia.
  - apply bounded_scan_directory_as_empty.
  - intros dataset_root max_files subdir_max_depth. unfold discover_tabular_files.
    rewrite list_root_tabular_files_as_empty, list_allowlisted_directories_as_empty.
    destruct (list_root_tabular_files dataset_root) as [e|root_files]; [reflexivity|].
    destruct (max_files <=? len root_files); [reflexivity|].
    destruct (list_allowlisted_directories dataset_root) as [|s dirs]; [reflexivity|].
    change (as_empty_path s :: map as_empty_path dirs) with (map as_empty_path (s :: dirs)).
    rewrite scan_subdirs_as_empty. reflexivity.
Qed.

Lemma unlistable_directory_is_skipped_witness :
  scan_loop 2 5 [(joinpath small_tree "test", 0); (joinpath small_tree "train", 0)] [] =
  scan_loop 2 5 [(joinpath small_tree "train", 0)] []
  /\ discover_tabular_files (unlistable_as_empty small_tree) 12 2 =
     discover_tabular_files small_tree 12 2.
Proof.
  destruct unlistable_directory_is_skipped as [Hskip [_ Hsame]].
  split; [apply Hskip; vm_compute; reflexivity | apply Hsame].
Defined.

Example small_tree_unlistable_test :
  iterdir (joinpath small_tree "test") = inl OSError
  /\ discover_tabular_files small_tree 12 2 =
     inr ([file_at ["data"; "a.CSV"]; file_at ["data"; "b.csv"];
           file_at ["data"; "train"; "a.csv"]; file_at ["data"; "train"; "z.parquet"];
           file_at ["data"; "train"; "sub"; "q.csv"];
           file_at ["data"; "train"; "sub"; "deep"; "r.csv"]], []).
Proof. split; vm_compute; reflexivity. Qed.

(** * Properties of the CSV inspector *)

Lemma emit_returns c rest : (exists s, rest = inr s) -> exists s, emit c rest = inr s.
Proof. intros [s ->]. simpl. eauto. Qed.

(** Under [errors="replace"] decoding always returns. *)
Lemma decode_utf8_replace_returns bs : exists text, decode_utf8 Replace bs = inr text.
Proof.
  assert (H : forall n bs, (length bs <= n)%nat -> exists text, decode_utf8 Replace bs = inr text).
  { clear bs. induction n as [|n IH]; intros bs Hn.
    - destruct bs; [simpl; eauto|simpl in Hn; lia].
    - destruct bs as [|b0 r0]; [simpl; eauto|]. simpl in Hn.
      assert (H0 : exists text, decode_utf8 Replace r0 = inr text) by (apply IH; lia).
      assert (Hnil : exists text, undecodable Replace (inr []) = inr text) by (simpl; eauto).
      simpl.
      repeat match goal with
      | |- exists text, (if ?c then _ else _) = inr text => destruct c
      | |- exists text, emit _ _ = inr text => apply emit_returns
      | |- exists text, undecodable Replace _ = inr text => apply emit_returns
      | |- exists text, match ?l with [] => _ | _ :: _ => _ end = inr text =>
          destruct l; simpl in Hn
      | |- exists text, decode_utf8 Replace _ = inr text => apply IH; simpl; lia
      | |- exists s, inr _ = inr s => eauto
      end. }
  apply (H (length bs)). lia.
Qed.

Lemma read_text_replace_returns path :
  is_file path = true -> exists text, read_text path Replace = inr text.
Proof.
  unfold is_file, read_text. destruct (target path); try discriminate.
  intros _. apply decode_utf8_replace_returns.
Qed.

Lemma read_text_not_a_file path errors :
  is_file path = false -> read_text path errors = inl OSError.
Proof. unfold is_file, read_text. destruct (target path); try discriminate; reflexivity. Qed.

(** ** Rows *)

Lemma cells_only_insert_str k v row :
  cells_only row -> cells_only (<[Some k := Str v]> row).
Proof.
  intros H k' l. destruct (decide (Some k = Some k')) as [->|Hne].
  - rewrite lookup_insert_eq. discriminate.
  - rewrite lookup_insert_ne by exact Hne. apply H.
Qed.

Lemma cells_only_insert_none k row :
  cells_only row -> cells_only (<[Some k := PyNone]> row).
Proof.
  intros H k' l. destruct (decide (Some k = Some k')) as [->|Hne].
  - rewrite lookup_insert_eq. discriminate.
  - rewrite lookup_insert_ne by exact Hne. apply H.
Qed.

Lemma dict_row_cells_only header row : cells_only (dict_row header row).
Proof.
  unfold dict_row.
  assert (Hzip : forall pairs d, cells_only d ->
            cells_only (foldl (fun d kv => <[Some (fst kv) := Str (snd kv)]> d) d pairs)).
  { induction pairs as [|kv r IH]; intros d Hd; simpl; [exact Hd|].
    apply IH, cells_only_insert_str, Hd. }
  assert (Hrest : forall keys d, cells_only d ->
            cells_only (foldl (fun d key => <[Some key := PyNone]> d) d keys)).
  { induction keys as [|k r IH]; intros d Hd; simpl; [exact Hd|].
    apply IH, cells_only_insert_none, Hd. }
  assert (H0 : cells_only (foldl (fun d kv => <[Some (fst kv) := Str (snd kv)]> d) ∅
                             (zip header row))).
  { apply Hzip. intros k l. rewrite lookup_empty. discriminate. }
  destruct (length header <? length row)%nat.
  - intros k l. rewrite lookup_insert_ne by discriminate. apply H0.
  - destruct (length row <? length header)%nat; [apply Hrest|]; exact H0.
Qed.

Lemma dict_rows_cells_only records : Forall cells_only (dict_rows records).
Proof.
  unfold dict_rows. destruct records as [|header body]; [constructor|].
  apply Forall_map. apply List.Forall_forall. intros row _. apply dict_row_cells_only.
Qed.

Lemma occurrences_nonneg col columns : 0 <= occurrences col columns.
Proof. apply len_nonneg. Qed.

Lemma occurrences_cons col c columns :
  occurrences col (c :: columns) =
  (if bool_decide (c = col) then 1 else 0) + occurrences col columns.
Proof.
  unfold occurrences; simpl. destruct (bool_decide (c = col)); unfold len; simpl; lia.
Qed.

Lemma occurrences_NoDup col columns : NoDup columns -> occurrences col columns <= 1.
Proof.
  induction 1 as [|c r Hc Hr IH]; [unfold occurrences, len; simpl; lia|].
  rewrite occurrences_cons. destruct (bool_decide_reflect (c = col)) as [->|Hne]; [|lia].
  assert (Hz : occurrences col r = 0); [|lia].
  unfold occurrences.
  replace (List.filter (fun c => bool_decide (c = col)) r) with (@nil ustr);
    [reflexivity|].
  symmetry. clear IH Hr. induction r as [|x r IH]; simpl; [reflexivity|].
  destruct (bool_decide_reflect (x = col)) as [->|Hx].
  - exfalso. apply Hc. left.
  - apply IH. intros Hin. apply Hc. right. exact Hin.
Qed.

Lemma raised_by_refl counts : raised_by (fun _ => 0) counts counts.
Proof. intros k. destruct (counts !! k) as [c|]; [exists c; split; [reflexivity|lia]|reflexivity]. Qed.

Lemma raised_by_trans b1 b2 m1 m2 m3 :
  raised_by b1 m1 m2 -> raised_by b2 m2 m3 ->
  raised_by (fun k => b1 k + b2 k) m1 m3.
Proof.
  intros H12 H23 k. specialize (H12 k). specialize (H23 k).
  destruct (m1 !! k) as [c|].
  - destruct H12 as [c' [Hc' Hb]]. rewrite Hc' in H23.
    destruct H23 as [c'' [Hc'' Hb']]. exists c''. split; [exact Hc''|lia].
  - rewrite H12 in H23. exact H23.
Qed.

Lemma raised_by_weaken (b1 b2 : ustr -> Z) m1 m2 :
  (forall k, b1 k <= b2 k) -> raised_by b1 m1 m2 -> raised_by b2 m1 m2.
Proof.
  intros Hb H k. specialize (H k). specialize (Hb k).
  destruct (m1 !! k) as [c|]; [|exact H].
  destruct H as [c' [Hc' Hr]]. exists c'. split; [exact Hc'|lia].
Qed.

(** The inner loop returns, and raises the count of a column at most once
    for each time its name stands in the header. *)
Lemma count_row_spec row columns : forall null_counts,
  cells_only row ->
  (forall c, In c columns -> is_Some (null_counts !! c)) ->
  exists null_counts',
    count_row columns row null_counts = inr null_counts'
    /\ raised_by (fun k => occurrences k columns) null_counts null_counts'.
Proof.
  induction columns as [|column rest IH]; intros null_counts Hrow Hkeys; simpl.
  - exists null_counts. split; [reflexivity|]. apply raised_by_refl.
  - assert (Hcell : exists b, is_empty_cell (row !! Some column) = inr b).
    { destruct (row !! Some column) as [[v| |l]|] eqn:Hv; simpl; eauto.
      exfalso. exact (Hrow _ _ Hv). }
    destruct Hcell as [b ->].
    destruct b.
    + destruct (Hkeys column (or_introl eq_refl)) as [c0 Hc0]. rewrite Hc0.
      destruct (IH (<[column := c0 + 1]> null_counts) Hrow) as [nc' [Hrun Hraised]].
      { intros c Hc. destruct (decide (column = c)) as [->|Hne].
        - rewrite lookup_insert_eq. eauto.
        - rewrite lookup_insert_ne by exact Hne. apply Hkeys. right. exact Hc. }
      exists nc'. split; [exact Hrun|].
      intros k. specialize (Hraised k). rewrite occurrences_cons.
      destruct (bool_decide_reflect (column = k)) as [->|Hne].
      * rewrite lookup_insert_eq in Hraised. rewrite Hc0.
        destruct Hraised as [c' [Hc' Hb]]. exists c'. split; [exact Hc'|lia].
      * rewrite lookup_insert_ne in Hraised by exact Hne.
        destruct (null_counts !! k) as [c|]; [|exact Hraised].
        destruct Hraised as [c' [Hc' Hb]]. exists c'. split; [exact Hc'|lia].
    + destruct (IH null_counts Hrow) as [nc' [Hrun Hraised]].
      { intros c Hc. apply Hkeys. right. exact Hc. }
      exists nc'. split; [exact Hrun|].
      eapply raised_by_weaken; [|exact Hraised].
      intros k. simpl. rewrite occurrences_cons. destruct (bool_decide (column = k)); lia.
Qed.

Lemma raised_by_keys b m1 m2 c :
  raised_by b m1 m2 -> is_Some (m1 !! c) -> is_Some (m2 !! c).
Proof.
  intros H [v Hv]. specialize (H c). rewrite Hv in H. destruct H as [c' [Hc' _]]. eauto.
Qed.

(** The outer loop returns after [min(sample_rows, rows)] rows (after none
    when [sample_rows] is below the count it starts from). *)
Lemma sample_loop_spec sample_rows columns rows : forall sampled null_counts,
  Forall cells_only rows ->
  (forall c, In c columns -> is_Some (null_counts !! c)) ->
  exists sampled' null_counts',
    sample_loop sample_rows columns rows (sampled, null_counts) = inr (sampled', null_counts')
    /\ sampled' = Z.max sampled (Z.min sample_rows (sampled + len rows))
    /\ raised_by (fun k => (sampled' - sampled) * occurrences k columns)
                 null_counts null_counts'.
Proof.
  induction rows as [|row rest IH]; intros sampled null_counts Hrows Hkeys; simpl.
  - exists sampled, null_counts. split; [reflexivity|]. split; [unfold len; simpl; lia|].
    eapply raised_by_weaken; [|apply raised_by_refl]. intros k; simpl. lia.
  - inversion Hrows as [|? ? Hrow Hrest]; subst.
    destruct (Z.leb_spec sample_rows sampled) as [Hfull|Hroom].
    + exists sampled, null_counts. split; [reflexivity|].
      split; [unfold len; simpl; lia|].
      eapply raised_by_weaken; [|apply raised_by_refl]. intros k; simpl. lia.
    + destruct (count_row_spec row columns null_counts Hrow Hkeys) as [nc1 [-> Hr1]].
      destruct (IH (sampled + 1) nc1 Hrest) as [sampled' [nc' [Hrun [Hs Hr2]]]].
      { intros c Hc. eapply raised_by_keys; [exact Hr1|]. apply Hkeys, Hc. }
      exists sampled', nc'. split; [exact Hrun|].
      split; [rewrite Hs; unfold len; simpl; lia|].
      eapply raised_by_weaken; [|exact (raised_by_trans _ _ _ _ _ Hr1 Hr2)].
      intros k; simpl. pose proof (occurrences_nonneg k columns).
      assert (sampled + 1 <= sampled') by (rewrite Hs; lia). nia.
Qed.

Lemma initial_counts_lookup columns : forall (m : gmap ustr Z) k,
  foldl (fun m column => <[column := 0]> m) m columns !! k =
  if decide (k ∈ columns) then Some 0 else m !! k.
Proof.
  induction columns as [|c r IH]; intros m k; simpl.
  - destruct (decide (k ∈ [])) as [H|_]; [inversion H|reflexivity].
  - rewrite IH. destruct (decide (k ∈ r)) as [Hin|Hnot].
    + destruct (decide (k ∈ c :: r)) as [_|H]; [reflexivity|].
      exfalso. apply H. right. exact Hin.
    + destruct (decide (c = k)) as [->|Hne].
      * rewrite lookup_insert_eq. destruct (decide (k ∈ k :: r)) as [_|H]; [reflexivity|].
        exfalso. apply H. left.
      * rewrite lookup_insert_ne by exact Hne.
        destruct (decide (k ∈ c :: r)) as [H|_]; [|reflexivity].
        apply elem_of_cons in H as [->|H]; [congruence|contradiction].
Qed.

Lemma omap_id_Some {A} (l : list A) : omap id (map Some l) = l.
Proof. induction l as [|x r IH]; simpl; [reflexivity|]. f_equal. exact IH. Qed.

Lemma header_columns records :
  omap id (default [] (fieldnames records)) = default [] (head records).
Proof. destruct records as [|h r]; simpl; [reflexivity|apply omap_id_Some]. Qed.

Section CsvInspectorProperties.

Variable csv_reader : ustr -> list (list ustr).

(** What the inspector makes of a regular file that opens, whatever its
    bytes, once the reader has given the rows. *)
Lemma inspect_csv_file_spec path sample_rows :
  is_file path = true ->
  exists text summary,
    read_text path Replace = inr text
    /\ inspect_csv_file csv_reader path sample_rows = inr summary
    /\ columns summary = default [] (head (csv_reader text))
    /\ sampled_rows summary =
       Z.max 0 (Z.min sample_rows (len (dict_rows (csv_reader text))))
    /\ (forall k, is_Some (null_counts summary !! k) <-> In k (columns summary))
    /\ (forall k c, null_counts summary !! k = Some c ->
                    0 <= c <= sampled_rows summary * occurrences k (columns summary)).
Proof.
  intros Hfile. destruct (read_text_replace_returns path Hfile) as [text Htext].
  unfold inspect_csv_file. rewrite Htext, header_columns.
  set (cols := default [] (head (csv_reader text))).
  set (init := foldl (fun m column => <[column := 0]> m) ∅ cols).
  assert (Hinit : forall k, init !! k = if decide (k ∈ cols) then Some 0 else None).
  { intros k. unfold init. rewrite initial_counts_lookup, lookup_empty. reflexivity. }
  destruct (sample_loop_spec sample_rows cols (dict_rows (csv_reader text)) 0 init)
    as [sampled [nc [Hrun [Hs Hraised]]]].
  { apply dict_rows_cells_only. }
  { intros c Hc. apply list_elem_of_In in Hc. rewrite Hinit.
    destruct (decide (c ∈ cols)); [eauto|contradiction]. }
  rewrite Hrun. exists text. eexists. split; [reflexivity|]. split; [reflexivity|]. simpl.
  split; [reflexivity|]. split; [rewrite Hs; reflexivity|]. split.
  - intros k. specialize (Hraised k). rewrite Hinit in Hraised. rewrite <- list_elem_of_In.
    destruct (decide (k ∈ cols)) as [Hin|Hnot].
    + destruct Hraised as [c' [-> _]]. split; eauto.
    + rewrite Hraised. split; [intros [? ?]; discriminate|contradiction].
  - intros k c Hc. specialize (Hraised k). rewrite Hinit in Hraised.
    destruct (decide (k ∈ cols)) as [Hin|Hnot].
    + destruct Hraised as [c' [Hc' Hb]]. rewrite Hc in Hc'. injection Hc' as <-.
      simpl in Hb. lia.
    + rewrite Hraised in Hc. discriminate.
Qed.

Lemma inspect_csv_file_not_a_file path sample_rows :
  is_file path = false -> inspect_csv_file csv_reader path sample_rows = inl OSError.
Proof.
  intros H. unfold inspect_csv_file. rewrite (read_text_not_a_file _ _ H). reflexivity.
Qed.

End CsvInspectorProperties.

(** ** The claims about the CSV inspector *)

(** C3, as the code has it.  For every path and every [sample_rows] the
    inspector either returns a summary or raises [OSError] because the path
    is no regular file.  The columns of the summary are the fields of the
    header row in their order, as the reader gives them: a name written
    twice in the header stands twice in [columns].  The keys of
    [null_counts] are exactly the names in [columns]. *)
Theorem csv_columns_and_null_count_keys
    (csv_reader : ustr -> list (list ustr)) path sample_rows :
  match inspect_csv_file csv_reader path sample_rows with
  | inr summary =>
      (exists text, read_text path Replace = inr text
                    /\ columns summary = default [] (head (csv_reader text)))
      /\ dom (null_counts summary) = list_to_set (columns summary)
  | inl e => e = OSError /\ is_file path = false
  end.
Proof.
  destruct (is_file path) eqn:Hfile.
  - destruct (inspect_csv_file_spec csv_reader path sample_rows Hfile)
      as [text [summary [Htext [-> [Hcols [_ [Hkeys _]]]]]]].
    split; [eauto|].
    apply set_eq. intros k.
    rewrite elem_of_dom, elem_of_list_to_set, list_elem_of_In. apply Hkeys.
  - rewrite (inspect_csv_file_not_a_file csv_reader path sample_rows Hfile). auto.
Qed.

(** The claim as the specification states it fails on a header that repeats
    a name: the columns of the summary are not pairwise distinct. *)
Lemma csv_columns_not_distinct :
  exists summary,
    inspect_csv_file plain_csv_reader duplicate_header_csv 200 = inr summary
    /\ columns summary = [ustr_of "a"; ustr_of "a"]
    /\ ~ NoDup (columns summary).
Proof.
  eexists. split; [vm_compute; reflexivity|]. split; [reflexivity|].
  simpl. intros H. inversion H as [|? ? Hnot _]. apply Hnot. left.
Qed.

(** C7, as the code has it.  Decoding under [errors="replace"] returns for
    every sequence of bytes, so the inspector never raises
    [UnicodeDecodeError].  Whenever the inspector returns a summary for
    [sample_rows >= 1], [sampled_rows] is the smaller of [sample_rows] and
    the number of rows the [DictReader] yields (the rows below the header
    that are not empty); no count is negative; and when the names of the
    header are pairwise distinct no count exceeds [sampled_rows]. *)
Theorem csv_sampled_rows_and_null_counts
    (csv_reader : ustr -> list (list ustr)) path sample_rows :
  1 <= sample_rows ->
  (forall bytes, exists text, decode_utf8 Replace bytes = inr text)
  /\ inspect_csv_file csv_reader path sample_rows <> inl UnicodeDecodeError
  /\ forall summary,
       inspect_csv_file csv_reader path sample_rows = inr summary ->
       exists text,
         read_text path Replace = inr text
         /\ sampled_rows summary = Z.min sample_rows (len (dict_rows (csv_reader text)))
         /\ (forall column c, null_counts summary !! column = Some c -> 0 <= c)
         /\ (NoDup (columns summary) ->
             forall column c, null_counts summary !! column = Some c ->
                              c <= sampled_rows summary).
Proof.
  intros Hsr. split; [exact decode_utf8_replace_returns|].
  destruct (is_file path) eqn:Hfile.
  - destruct (inspect_csv_file_spec csv_reader path sample_rows Hfile)
      as [text [summary [Htext [Hrun [_ [Hs [_ Hbound]]]]]]].
    rewrite Hrun. split; [discriminate|].
    intros summary' [= <-]. exists text. split; [exact Htext|].
    pose proof (len_nonneg (dict_rows (csv_reader text))) as Hlen.
    split; [rewrite Hs; lia|]. split.
    + intros column c Hc. apply (Hbound _ _ Hc).
    + intros Hnodup column c Hc. destruct (Hbound _ _ Hc) as [_ Hle].
      pose proof (occurrences_NoDup column _ Hnodup) as Hocc.
      pose proof (occurrences_nonneg column (columns summary)) as Hocc0.
      assert (0 <= sampled_rows summary) by (rewrite Hs; lia). nia.
  - rewrite (inspect_csv_file_not_a_file csv_reader path sample_rows Hfile).
    split; discriminate.
Qed.

Lemma csv_sampled_rows_and_null_counts_witness :
  1 <= 200
  /\ exists summary,
       inspect_csv_file plain_csv_reader scenario_A_csv 200 = inr summary
       /\ exists text,
            read_text scenario_A_csv Replace = inr text
            /\ sampled_rows summary = Z.min 200 (len (dict_rows (plain_csv_reader text)))
            /\ (forall column c, null_counts summary !! column = Some c -> 0 <= c)
            /\ (NoDup (columns summary) ->
                forall column c, null_counts summary !! column = Some c ->
                                 c <= sampled_rows summary).
Proof.
  split; [lia|].
  assert (Hsr : 1 <= 200) by lia.
  assert (Hrun : exists summary,
            inspect_csv_file plain_csv_reader scenario_A_csv 200 = inr summary)
    by (eexists; vm_compute; reflexivity).
  destruct Hrun as [summary Hrun]. exists summary. split; [exact Hrun|].
  exact (proj2 (proj2 (csv_sampled_rows_and_null_counts plain_csv_reader scenario_A_csv 200 Hsr))
           summary Hrun).
Defined.

(** Scenario A: three sampled rows, two of them without a label. *)
Example scenario_A_summary :
  exists summary,
    inspect_csv_file plain_csv_reader scenario_A_csv 200 = inr summary
    /\ columns summary = [ustr_of "id"; ustr_of "label"]
    /\ sampled_rows summary = 3
    /\ null_counts summary !! ustr_of "label" = Some 2
    /\ null_counts summary !! ustr_of "id" = Some 0.
Proof. eexists. split; [vm_compute; reflexivity|]. repeat split; vm_compute; reflexivity. Qed.

(** The sample stops at [sample_rows]. *)
Example scenario_A_two_rows :
  exists summary,
    inspect_csv_file plain_csv_reader scenario_A_csv 2 = inr summary
    /\ sampled_rows summary = 2
    /\ null_counts summary !! ustr_of "label" = Some 1.
Proof. eexists. split; [vm_compute; reflexivity|]. repeat split; vm_compute; reflexivity. Qed.

(** The claim as the specification states it fails on a header that repeats
    a name: the one sampled row raises the count of [a] twice. *)
Lemma csv_null_count_exceeds_sampled_rows :
  exists summary c,
    inspect_csv_file plain_csv_reader duplicate_header_csv 200 = inr summary
    /\ sampled_rows summary = 1
    /\ null_counts summary !! ustr_of "a" = Some c
    /\ c = 2 /\ sampled_rows summary < c.
Proof.
  eexists. exists 2. split; [vm_compute; reflexivity|].
  repeat split; vm_compute; reflexivity.
Qed.

(** An empty line below the header is no row of the [DictReader]: of the
    two lines below the header of [blank_line_csv] one is sampled. *)
Example blank_line_is_not_sampled :
  exists text summary,
    read_text blank_line_csv Replace = inr text
    /\ plain_csv_reader text = [[ustr_of "a"]; []; [ustr_of "1"]]
    /\ inspect_csv_file plain_csv_reader blank_line_csv 200 = inr summary
    /\ sampled_rows summary = 1
    /\ null_counts summary !! ustr_of "a" = Some 0.
Proof.
  eexists. eexists. split; [vm_compute; reflexivity|]. split; [vm_compute; reflexivity|].
  split; [vm_compute; reflexivity|]. split; vm_compute; reflexivity.
Qed.

(** The same bytes raise under the strict policy and are replaced under the
    one the inspector asks for. *)
Example undecodable_bytes_are_replaced :
  read_text undecodable_csv Strict = inl UnicodeDecodeError
  /\ read_text undecodable_csv Replace
     = inr [110; 10; REPLACEMENT_CHARACTER; 10; 32; 10]%N
  /\ exists summary,
       inspect_csv_file plain_csv_reader undecodable_csv 200 = inr summary
       /\ sampled_rows summary = 2
       /\ null_counts summary !! ustr_of "n" = Some 1.
Proof.
  split; [reflexivity|]. split; [reflexivity|].
  eexists. split; [vm_compute; reflexivity|]. split; vm_compute; reflexivity.
Qed.

(** * Properties of the Parquet inspector *)

Lemma build_parquet_fallback_options host path :
  options (build_parquet_fallback host path) <> [].
Proof.
  unfold build_parquet_fallback; simpl.
  destruct (which host "duckdb"); destruct (which host "parquet-tools"); discriminate.
Qed.

(** C5.  The status is one of the three; with [ok] there is neither error
    nor fallback, and the sample fields are filled; with
    [fallback-required] or [read-error] there is an error message and a
    fallback whose list of options is not empty, and the sample fields are
    [None]. *)
Theorem parquet_status_invariant host path sample_rows :
  (status (inspect_parquet_file host path sample_rows) = "ok"
   \/ status (inspect_parquet_file host path sample_rows) = "fallback-required"
   \/ status (inspect_parquet_file host path sample_rows) = "read-error")
  /\ (status (inspect_parquet_file host path sample_rows) = "ok" ->
      error (inspect_parquet_file host path sample_rows) = None
      /\ fallback (inspect_parquet_file host path sample_rows) = None
      /\ pq_sampled_rows (inspect_parquet_file host path sample_rows) <> None
      /\ pq_null_counts (inspect_parquet_file host path sample_rows) <> None)
  /\ (status (inspect_parquet_file host path sample_rows) = "fallback-required"
      \/ status (inspect_parquet_file host path sample_rows) = "read-error" ->
      error (inspect_parquet_file host path sample_rows) <> None
      /\ (exists suggestion,
            fallback (inspect_parquet_file host path sample_rows) = Some suggestion
            /\ options suggestion <> [])
      /\ pq_sampled_rows (inspect_parquet_file host path sample_rows) = None
      /\ pq_null_counts (inspect_parquet_file host path sample_rows) = None).
Proof.
  pose proof (build_parquet_fallback_options host path) as Hopt.
  unfold inspect_parquet_file.
  destruct (pyarrow host) as [open_parquet|].
  - destruct (open_parquet path) as [err|parquet_file].
    + simpl. repeat split; try discriminate; eauto; try match goal with H : _ \/ _ |- _ => destruct H; discriminate end.
    + destruct (first_batch parquet_file sample_rows) as [err|[table|]]; simpl;
        repeat split; try discriminate; eauto; try match goal with H : _ \/ _ |- _ => destruct H; discriminate end.
  - simpl. repeat split; try discriminate; eauto; try match goal with H : _ \/ _ |- _ => destruct H; discriminate end.
Qed.

(** Scenario E: without [pyarrow] every file needs the fallback. *)
Example scenario_E path sample_rows :
  status (inspect_parquet_file bare_host path sample_rows) = "fallback-required"
  /\ error (inspect_parquet_file bare_host path sample_rows)
     = Some "pyarrow is not installed in the active Python environment."
  /\ (exists suggestion,
        fallback (inspect_parquet_file bare_host path sample_rows) = Some suggestion
        /\ map tool (options suggestion) = ["uv"]).
Proof. repeat split. eexists. split; reflexivity. Qed.

Example failing_host_read_error :
  status (inspect_parquet_file failing_host (file_at ["data"; "x.parquet"]) 200) = "read-error"
  /\ pq_columns (inspect_parquet_file failing_host (file_at ["data"; "x.parquet"]) 200)
     = [("id", "int64"); ("label", "int64")]
  /\ error (inspect_parquet_file failing_host (file_at ["data"; "x.parquet"]) 200)
     = Some "pyarrow failed while reading sample rows: corrupt page"
  /\ (exists suggestion,
        fallback (inspect_parquet_file failing_host (file_at ["data"; "x.parquet"]) 200)
          = Some suggestion
        /\ map tool (options suggestion) = ["duckdb"; "uv"]).
Proof. repeat split. eexists. split; reflexivity. Qed.

(** * The run *)

Lemma is_tabular_file_is_file p : is_tabular_file p = true -> is_file p = true.
Proof. unfold is_tabular_file. intros H. apply andb_prop in H as [H _]. exact H. Qed.

Lemma level_order_tabular d : forall level p,
  In p (level_order d level) -> is_tabular_file p = true.
Proof.
  induction d as [|d IH]; intros level p Hp; simpl in Hp; apply in_app_or in Hp as [Hp|Hp];
    try (apply in_flat_map in Hp as [s [_ Hp]]; apply filter_In in Hp as [_ Hp]; exact Hp).
  - destruct Hp.
  - eapply IH, Hp.
Qed.

(** Every candidate is a regular file with a tabular suffix. *)
Lemma discovered_are_tabular dataset_root max_files subdir_max_depth files warnings p :
  0 <= max_files ->
  discover_tabular_files dataset_root max_files subdir_max_depth = inr (files, warnings) ->
  In p files -> is_tabular_file p = true.
Proof.
  intros Hmf Hrun Hp.
  rewrite (discover_tabular_files_order _ _ _ _ _ Hmf Hrun) in Hp.
  apply list_elem_of_In, elem_of_take in Hp as [i [Hp _]].
  apply list_elem_of_lookup_2, list_elem_of_In in Hp.
  unfold discovery_order in Hp. apply in_app_or in Hp as [Hp|Hp].
  - apply filter_In in Hp as [_ Hp]. exact Hp.
  - apply in_flat_map in Hp as [s [_ Hp]]. eapply level_order_tabular, Hp.
Qed.

Section RunProperties.

Variable csv_reader : ustr -> list (list ustr).
Variable host : Host.

(** In the embedding the inspection of regular files returns, one summary
    for each file. *)
Lemma inspect_all_returns files sample_rows :
  Forall (fun p => is_file p = true) files ->
  exists items,
    inspect_all csv_reader host files sample_rows = inr items
    /\ length items = length files.
Proof.
  induction 1 as [|p r Hp Hr IH]; simpl; [exists []; auto|].
  destruct IH as [items [-> Hlen]].
  unfold inspect_file. destruct (String.eqb (lower (suffix p)) ".csv").
  - destruct (inspect_csv_file_spec csv_reader p sample_rows Hp)
      as [text [summary [_ [-> _]]]].
    eexists. split; [reflexivity|]. simpl. rewrite Hlen. reflexivity.
  - eexists. split; [reflexivity|]. simpl. rewrite Hlen. reflexivity.
Qed.

(** When the root alone fills the budget, discovery stops there and returns
    no warning at all. *)
Lemma discover_root_budget dataset_root max_files subdir_max_depth root_files :
  list_root_tabular_files dataset_root = inr root_files ->
  max_files <= len root_files ->
  discover_tabular_files dataset_root max_files subdir_max_depth =
  inr (slice_to root_files max_files, []).
Proof.
  intros Hroot Hle. unfold discover_tabular_files. rewrite Hroot.
  destruct (Z.leb_spec max_files (len root_files)); [reflexivity|lia].
Qed.

(** C2, at Scenario C (fifteen CSV files at the root, [max_files = 12]).
    The run ends with exit code 0 and twelve inspections, the first twelve
    root files in name order; the [train] directory is not scanned.  But
    the warnings of the run are empty: the early return of
    [discover_tabular_files] hands back the warning list before
    [max_files_reached] is appended to it. *)
Theorem scenario_C_run_has_no_warning :
  discover_tabular_files scenario_C 12 2 =
    inr (map (fun n => file_at ["data"; n])
           ["f00.csv"; "f01.csv"; "f02.csv"; "f03.csv"; "f04.csv"; "f05.csv";
            "f06.csv"; "f07.csv"; "f08.csv"; "f09.csv"; "f10.csv"; "f11.csv"], [])
  /\ exists report,
       main csv_reader host scenario_C_args = inr (0, Some report)
       /\ length (inspections report) = 12%nat
       /\ warnings report = []
       /\ ~ In (max_files_reached 12) (warnings report).
Proof.
  assert (Hrun : discover_tabular_files scenario_C 12 2 =
    inr (map (fun n => file_at ["data"; n])
           ["f00.csv"; "f01.csv"; "f02.csv"; "f03.csv"; "f04.csv"; "f05.csv";
            "f06.csv"; "f07.csv"; "f08.csv"; "f09.csv"; "f10.csv"; "f11.csv"], []))
    by (vm_compute; reflexivity).
  split; [exact Hrun|].
  unfold main.
  replace (validate_inputs scenario_C_args) with
    (@inr exn _ (scenario_C, @nil InspectionWarning)) by (vm_compute; reflexivity).
  change (args_max_files scenario_C_args) with 12.
  change (args_subdir_max_depth scenario_C_args) with 2.
  rewrite Hrun.
  destruct (inspect_all_returns
              (map (fun n => file_at ["data"; n])
                 ["f00.csv"; "f01.csv"; "f02.csv"; "f03.csv"; "f04.csv"; "f05.csv";
                  "f06.csv"; "f07.csv"; "f08.csv"; "f09.csv"; "f10.csv"; "f11.csv"])
              (args_sample_rows scenario_C_args))
    as [items [-> Hlen]].
  { repeat constructor. }
  eexists. split; [reflexivity|]. simpl. split; [exact Hlen|]. split; [reflexivity|].
  intros [].
Qed.

End RunProperties.

(** * Further properties of discovery *)

Lemma listing_In q c : In c (listing q) <-> child_of q c.
Proof.
  unfold listing, child_of. destruct (iterdir q) as [e|children].
  - split; [intros []|intros [? [? _]]; discriminate].
  - split.
    + intros H. exists children. split; [reflexivity|].
      eapply Permutation_in; [apply sorted_by_name_Permutation|exact H].
    + intros [? [[= <-] H]].
      eapply Permutation_in; [symmetry; apply sorted_by_name_Permutation|exact H].
Qed.

Lemma tabular_children_In q p :
  In p (tabular_children q) <-> child_of q p /\ is_tabular_file p = true.
Proof. unfold tabular_children. rewrite filter_In, listing_In. reflexivity. Qed.

Lemma subdirectories_In q c :
  In c (subdirectories q) <-> child_of q c /\ is_dir c = true.
Proof. unfold subdirectories. rewrite filter_In, listing_In. reflexivity. Qed.

(** The files of [level_order d level] are the tabular entries of the
    directories reached from [level] through at most [d] subdirectories. *)
Lemma level_order_In d : forall level p,
  In p (level_order d level) <->
  exists s k q, In s level /\ (k <= d)%nat /\ descends k s q
                /\ child_of q p /\ is_tabular_file p = true.
Proof.
  induction d as [|d IH]; intros level p; simpl; rewrite in_app_iff, in_flat_map.
  - split.
    + intros [[s [Hs Hp]]|[]]. apply tabular_children_In in Hp.
      exists s, 0%nat, s. repeat split; try tauto; try lia; constructor.
    + intros [s [k [q [Hs [Hk [Hd Hp]]]]]]. left.
      assert (k = 0)%nat by lia. subst k. inversion Hd; subst.
      exists q. split; [exact Hs|]. apply tabular_children_In. exact Hp.
  - rewrite IH. split.
    + intros [[s [Hs Hp]]|[c [k [q [Hc [Hk [Hd Hp]]]]]]].
      * apply tabular_children_In in Hp.
        exists s, 0%nat, s. repeat split; try tauto; try lia; constructor.
      * apply in_flat_map in Hc as [s [Hs Hc]]. apply subdirectories_In in Hc as [Hc Hdir].
        exists s, (S k), q. repeat split; try tauto; [lia|].
        econstructor; eassumption.
    + intros [s [k [q [Hs [Hk [Hd Hp]]]]]].
      inversion Hd as [|k' ? c ? Hc Hdir Hd']; subst.
      * left. exists q. split; [exact Hs|]. apply tabular_children_In. exact Hp.
      * right. exists c, k', q. repeat split; try tauto; [|lia].
        apply in_flat_map. exists s. split; [exact Hs|]. apply subdirectories_In. auto.
Qed.

(** X2.  Completeness.  When the budget was not reached, discovery found
    exactly the tabular entries of the root and, for every allowlisted
    subdirectory, the tabular entries of the directories reached from it
    through at most [subdir_max_depth] listable subdirectories. *)
Theorem discover_finds_everything_below_budget
    dataset_root max_files subdir_max_depth files warnings :
  0 <= subdir_max_depth ->
  discover_tabular_files dataset_root max_files subdir_max_depth = inr (files, warnings) ->
  len files < max_files ->
  forall p,
    In p files <->
    (child_of dataset_root p /\ is_tabular_file p = true)
    \/ (exists subdir k q,
          In subdir (list_allowlisted_directories dataset_root)
          /\ Z.of_nat k <= subdir_max_depth
          /\ descends k subdir q
          /\ child_of q p /\ is_tabular_file p = true).
Proof.
  intros Hd Hrun Hlt p.
  assert (Hmf : 0 <= max_files) by (pose proof (len_nonneg files); lia).
  pose proof (discover_tabular_files_order _ _ _ _ _ Hmf Hrun) as Hfiles.
  assert (Hall : files = discovery_order dataset_root subdir_max_depth).
  { rewrite Hfiles. apply take_ge.
    rewrite Hfiles in Hlt. unfold len in Hlt. rewrite length_take in Hlt. lia. }
  rewrite Hall. unfold discovery_order.
  rewrite in_app_iff, tabular_children_In, in_flat_map.
  split.
  - intros [H|[s [Hs Hp]]]; [left; exact H|right].
    apply level_order_In in Hp as [s' [k [q [[<-|[]] [Hk [Hdesc Hp]]]]]].
    exists s, k, q. repeat split; try tauto. lia.
  - intros [H|[s [k [q [Hs [Hk [Hdesc Hp]]]]]]]; [left; exact H|right].
    exists s. split; [exact Hs|]. apply level_order_In.
    exists s, k, q. repeat split; try tauto; [left; reflexivity|lia].
Qed.

Lemma discover_finds_everything_below_budget_witness :
  0 <= 1
  /\ len [file_at ["data"; "a.CSV"]; file_at ["data"; "b.csv"];
          file_at ["data"; "train"; "a.csv"]; file_at ["data"; "train"; "z.parquet"];
          file_at ["data"; "train"; "sub"; "q.csv"]] < 12
  /\ forall p,
       In p [file_at ["data"; "a.CSV"]; file_at ["data"; "b.csv"];
             file_at ["data"; "train"; "a.csv"]; file_at ["data"; "train"; "z.parquet"];
             file_at ["data"; "train"; "sub"; "q.csv"]] <->
       (child_of small_tree p /\ is_tabular_file p = true)
       \/ (exists subdir k q,
             In subdir (list_allowlisted_directories small_tree)
             /\ Z.of_nat k <= 1
             /\ descends k subdir q
             /\ child_of q p /\ is_tabular_file p = true).
Proof.
  assert (H0 : 0 <= 1) by lia.
  assert (H1 : len [file_at ["data"; "a.CSV"]; file_at ["data"; "b.csv"];
          file_at ["data"; "train"; "a.csv"]; file_at ["data"; "train"; "z.parquet"];
          file_at ["data"; "train"; "sub"; "q.csv"]] < 12) by (vm_compute; reflexivity).
  exact (conj H0 (conj H1
    (discover_finds_everything_below_budget small_tree 12 1 _ _ H0 small_tree_depth_1 H1))).
Defined.

(** X3.  A larger budget only appends.  The candidates found with budget
    [max_files] are the first [max_files] of those found with any larger
    budget. *)
Theorem discover_budget_monotone dataset_root max_files max_files' subdir_max_depth
    files warnings files' warnings' :
  0 <= max_files <= max_files' ->
  discover_tabular_files dataset_root max_files subdir_max_depth = inr (files, warnings) ->
  discover_tabular_files dataset_root max_files' subdir_max_depth = inr (files', warnings') ->
  files = take (Z.to_nat max_files) files'.
Proof.
  intros [H0 Hle] Hrun Hrun'.
  rewrite (discover_tabular_files_order _ _ _ _ _ H0 Hrun).
  assert (H0' : 0 <= max_files') by lia.
  rewrite (discover_tabular_files_order _ _ _ _ _ H0' Hrun').
  rewrite take_take. f_equal. lia.
Qed.

Lemma discover_budget_monotone_witness :
  0 <= 3 <= 12
  /\ [file_at ["data"; "a.CSV"]; file_at ["data"; "b.csv"];
      file_at ["data"; "train"; "a.csv"]] =
     take (Z.to_nat 3)
       [file_at ["data"; "a.CSV"]; file_at ["data"; "b.csv"];
        file_at ["data"; "train"; "a.csv"]; file_at ["data"; "train"; "z.parquet"];
        file_at ["data"; "train"; "sub"; "q.csv"]].
Proof.
  assert (H : 0 <= 3 <= 12) by lia.
  exact (conj H (discover_budget_monotone small_tree 3 12 1 _ _ _ _ H
                   small_tree_budget_3 small_tree_depth_1)).
Defined.

Lemma level_order_deeper d : forall level,
  level_order d level `prefix_of` level_order (S d) level.
Proof.
  induction d as [|d IH]; intros level.
  - simpl. rewrite app_nil_r. apply prefix_app_r. reflexivity.
  - change (level_order (S d) level) with
      (flat_map tabular_children level ++ level_order d (flat_map subdirectories level)).
    change (level_order (S (S d)) level) with
      (flat_map tabular_children level ++ level_order (S d) (flat_map subdirectories level)).
    apply prefix_app. apply IH.
Qed.

Lemma level_order_deeper_add d n level :
  level_order d level `prefix_of` level_order (d + n) level.
Proof.
  induction n as [|n IH].
  - rewrite Nat.add_0_r. reflexivity.
  - rewrite Nat.add_succ_r. etransitivity; [exact IH|apply level_order_deeper].
Qed.

Lemma prefix_take {A} (n : nat) (l k : list A) :
  l `prefix_of` k -> take n l `prefix_of` take n k.
Proof.
  intros [r ->]. rewrite take_app. apply prefix_app_r. reflexivity.
Qed.

(** X4.  A larger depth bound only appends.  With the same limit, the scan
    of one directory with a larger depth bound starts with the files the
    scan with the smaller bound returns. *)
Theorem bounded_scan_depth_monotone root max_depth (deeper : nat) limit :
  bounded_scan_directory root max_depth limit
  `prefix_of` bounded_scan_directory root (max_depth + Z.of_nat deeper) limit.
Proof.
  rewrite !bounded_scan_directory_level_order. apply prefix_take.
  destruct (Z.le_gt_cases 0 max_depth) as [Hd|Hd].
  - replace (Z.to_nat (max_depth + Z.of_nat deeper)) with (Z.to_nat max_depth + deeper)%nat
      by lia.
    apply level_order_deeper_add.
  - replace (Z.to_nat max_depth) with 0%nat by lia.
    apply (level_order_deeper_add 0).
Qed.

(** X5.  What is found is tabular.  Every candidate is a regular file whose
    suffix is [.csv] or [.parquet] up to letter case; no directory and no
    other file is ever returned, whatever the budget and the depth. *)
Theorem discovered_files_are_tabular
    dataset_root max_files subdir_max_depth files warnings p :
  discover_tabular_files dataset_root max_files subdir_max_depth = inr (files, warnings) ->
  In p files ->
  is_file p = true
  /\ (lower (suffix p) = ".csv" \/ lower (suffix p) = ".parquet").
Proof.
  intros Hrun Hp.
  assert (Htab : is_tabular_file p = true).
  { destruct (Z.le_gt_cases 0 max_files) as [Hmf|Hneg].
    - exact (discovered_are_tabular _ _ _ _ _ p Hmf Hrun Hp).
    - unfold discover_tabular_files in Hrun.
      destruct (list_root_tabular_files dataset_root) as [e|rf] eqn:Hroot; [discriminate|].
      destruct (Z.leb_spec max_files (len rf)) as [_|Hlt];
        [|pose proof (len_nonneg rf); lia].
      injection Hrun as <- _. unfold slice_to in Hp.
      destruct (Z.leb_spec 0 max_files); [lia|].
      apply list_elem_of_In, elem_of_take in Hp as [i [Hp _]].
      apply list_elem_of_lookup_2, list_elem_of_In in Hp.
      unfold list_root_tabular_files in Hroot.
      destruct (iterdir dataset_root); [discriminate|]. injection Hroot as <-.
      apply filter_In in Hp as [_ Hp]. exact Hp. }
  split; [apply is_tabular_file_is_file, Htab|].
  unfold is_tabular_file in Htab. apply andb_prop in Htab as [_ Hs].
  simpl in Hs. rewrite orb_false_r in Hs. apply orb_prop in Hs as [Hs|Hs];
    apply String.eqb_eq in Hs; auto.
Qed.

Lemma discovered_files_are_tabular_witness :
  In (file_at ["data"; "a.CSV"])
     [file_at ["data"; "a.CSV"]; file_at ["data"; "b.csv"];
      file_at ["data"; "train"; "a.csv"]]
  /\ is_file (file_at ["data"; "a.CSV"]) = true
  /\ (lower (suffix (file_at ["data"; "a.CSV"])) = ".csv"
      \/ lower (suffix (file_at ["data"; "a.CSV"])) = ".parquet").
Proof.
  assert (H : In (file_at ["data"; "a.CSV"])
     [file_at ["data"; "a.CSV"]; file_at ["data"; "b.csv"];
      file_at ["data"; "train"; "a.csv"]]) by (left; reflexivity).
  exact (conj H (discovered_files_are_tabular small_tree 3 1 _ _ _ small_tree_budget_3 H)).
Defined.

(** X6.  The warnings say what happened.  Discovery returns at most one
    warning, with one of three codes; [max_files_reached] comes only with
    exactly [max_files] candidates; [no_tabular_files_found] only when the
    scan rules reach no tabular file at all, so never because of the budget;
    [no_allowlisted_dirs] only when no allowlisted name is a directory, and
    then the candidates are the root files. *)
Theorem discover_warnings_sound dataset_root max_files subdir_max_depth files warnings :
  0 <= max_files ->
  discover_tabular_files dataset_root max_files subdir_max_depth = inr (files, warnings) ->
  (length warnings <= 1)%nat
  /\ (forall w, In w warnings ->
        w = max_files_reached max_files /\ len files = max_files
        \/ w = no_tabular_files_found /\ files = []
           /\ discovery_order dataset_root subdir_max_depth = []
        \/ w = no_allowlisted_dirs /\ list_allowlisted_directories dataset_root = []
           /\ list_root_tabular_files dataset_root = inr files).
Proof.
  intros Hmf. unfold discover_tabular_files.
  destruct (list_root_tabular_files dataset_root) as [e|rf] eqn:Hroot; [discriminate|].
  pose proof (list_root_tabular_files_listing _ _ Hroot) as Hrf.
  destruct (Z.leb_spec max_files (len rf)) as [Hfull|Hroom].
  - intros [= <- <-]. simpl. split; [lia|intros w []].
  - destruct (list_allowlisted_directories dataset_root) as [|s dirs] eqn:Hdirs.
    + intros [= <- <-]. simpl. split; [lia|].
      intros w [<-|[]]. right. right. auto.
    + rewrite scan_subdirs_spec by lia. cbv zeta.
      set (found := take (Z.to_nat max_files) _).
      assert (Hfound : found = take (Z.to_nat max_files)
                                 (discovery_order dataset_root subdir_max_depth)).
      { unfold found, discovery_order. rewrite Hdirs, Hrf. reflexivity. }
      assert (Hlen : len found <= max_files).
      { unfold found, len. rewrite length_take. lia. }
      intros [= <- <-].
      destruct (Z.leb_spec (max_files - len found) 0) as [Hreach|Hnot].
      * simpl. split; [lia|]. intros w [<-|[]]. left. split; [reflexivity|lia].
      * destruct found as [|f r] eqn:Hf.
        -- simpl. split; [lia|]. intros w [<-|[]]. right. left.
           split; [reflexivity|]. split; [reflexivity|].
           symmetry in Hfound. apply take_nil_inv in Hfound as [H0|H0]; [|exact H0].
           unfold len in Hnot; simpl in Hnot. lia.
        -- simpl. split; [lia|intros w []].
Qed.

Lemma discover_warnings_sound_witness :
  0 <= 3
  /\ (length [max_files_reached 3] <= 1)%nat
  /\ (forall w, In w [max_files_reached 3] ->
        w = max_files_reached 3
        /\ len [file_at ["data"; "a.CSV"]; file_at ["data"; "b.csv"];
                file_at ["data"; "train"; "a.csv"]] = 3
        \/ w = no_tabular_files_found
           /\ [file_at ["data"; "a.CSV"]; file_at ["data"; "b.csv"];
               file_at ["data"; "train"; "a.csv"]] = []
           /\ discovery_order small_tree 1 = []
        \/ w = no_allowlisted_dirs /\ list_allowlisted_directories small_tree = []
           /\ list_root_tabular_files small_tree
              = inr [file_at ["data"; "a.CSV"]; file_at ["data"; "b.csv"];
                     file_at ["data"; "train"; "a.csv"]]).
Proof.
  assert (H : 0 <= 3) by lia.
  exact (conj H (discover_warnings_sound small_tree 3 1 _ _ H small_tree_budget_3)).
Defined.

(** ** No candidate twice *)

Lemma unique_names_entries l es :
  unique_names (Dir l es) = true ->
  NoDup (map fst es) /\ forall e, In e es -> unique_names (snd e) = true.
Proof.
  simpl. intros H. apply andb_prop in H as [Hn Hall].
  split; [apply bool_decide_eq_true in Hn; exact Hn|].
  intros e He. rewrite forallb_forall in Hall. apply Hall, He.
Qed.

Lemma sublist_map {A B} (f : A -> B) (l k : list A) :
  sublist l k -> sublist (map f l) (map f k).
Proof. induction 1; simpl; constructor; assumption. Qed.

Lemma NoDup_map_snoc (prefix : list string) (es : list (string * node)) :
  NoDup (map fst es) -> NoDup (map (fun e => prefix ++ [fst e]) es).
Proof.
  induction es as [|e r IH]; simpl; intros H; [constructor|].
  apply NoDup_cons in H as [Hnot Hr]. apply NoDup_cons. split; [|apply IH, Hr].
  intros Hin. apply Hnot. apply list_elem_of_In in Hin. apply list_elem_of_In.
  apply in_map_iff in Hin as [e' [Heq He']].
  apply app_inj_tail in Heq as [_ Heq]. apply in_map_iff. exists e'. auto.
Qed.

Lemma listing_unique q :
  unique_names (target q) = true ->
  NoDup (map parts (listing q))
  /\ forall c, In c (listing q) ->
       unique_names (target c) = true /\ length (parts c) = S (length (parts q)).
Proof.
  intros Hq. unfold listing, iterdir.
  destruct (target q) as [|[] es| |]; simpl; try (split; [constructor|intros ? []]).
  apply unique_names_entries in Hq as [Hnames Hall]. split.
  - rewrite (Permutation_map parts (sorted_by_name_Permutation _)).
    rewrite map_map; simpl. apply NoDup_map_snoc, Hnames.
  - intros c Hc. eapply Permutation_in in Hc; [|apply sorted_by_name_Permutation].
    apply in_map_iff in Hc as [e [<- He]]. simpl. split; [apply Hall, He|].
    rewrite length_app. simpl. lia.
Qed.

Lemma flat_map_listing_ok n level :
  level_ok n level -> level_ok (S n) (flat_map listing level).
Proof.
  intros [Hnd Hall]. induction level as [|q r IH]; simpl; [split; [constructor|intros ? []]|].
  simpl in Hnd. apply NoDup_cons in Hnd as [Hnot Hr].
  destruct (Hall q (or_introl eq_refl)) as [Hq Hlen].
  destruct (listing_unique q Hq) as [Hlq Hcq].
  destruct (IH Hr (fun c Hc => Hall c (or_intror Hc))) as [IHnd IHall].
  split.
  - rewrite map_app. apply NoDup_app. split; [exact Hlq|]. split; [|exact IHnd].
    intros x Hx Hx'. apply list_elem_of_In in Hx, Hx'.
    apply in_map_iff in Hx as [c [<- Hc]]. apply in_map_iff in Hx' as [c' [Heq Hc']].
    apply listing_parts in Hc as [m Hm]. apply in_flat_map in Hc' as [q' [Hq' Hc']].
    apply listing_parts in Hc' as [m' Hm']. rewrite Hm, Hm' in Heq.
    apply app_inj_tail in Heq as [Heq _]. apply Hnot. rewrite <- Heq.
    apply list_elem_of_In, in_map. exact Hq'.
  - intros c Hc. apply in_app_or in Hc as [Hc|Hc].
    + destruct (Hcq c Hc) as [Hu Hl]. split; [exact Hu|lia].
    + apply IHall, Hc.
Qed.

Lemma filter_sublist {A} (f : A -> bool) (l : list A) : sublist (List.filter f l) l.
Proof.
  induction l as [|x r IH]; simpl; [constructor|].
  destruct (f x); constructor; exact IH.
Qed.

Lemma flat_map_sublist {A B} (f g : A -> list B) (l : list A) :
  (forall x, sublist (f x) (g x)) -> sublist (flat_map f l) (flat_map g l).
Proof.
  intros H. induction l as [|x r IH]; simpl; [constructor|].
  apply sublist_app; [apply H|exact IH].
Qed.

Lemma level_ok_sublist n level level' :
  sublist level' level -> level_ok n level -> level_ok n level'.
Proof.
  intros Hsub [Hnd Hall]. split.
  - eapply sublist_NoDup; [exact Hnd|]. apply sublist_map. exact Hsub.
  - intros q Hq. apply Hall. apply list_elem_of_In.
    eapply elem_of_sublist; [|exact Hsub]. apply list_elem_of_In. exact Hq.
Qed.

Lemma level_order_unique d : forall n level,
  level_ok n level ->
  NoDup (map parts (level_order d level))
  /\ forall p, In p (level_order d level) -> (n < length (parts p))%nat.
Proof.
  induction d as [|d IH]; intros n level Hok.
  - simpl. rewrite app_nil_r.
    assert (Hf : level_ok (S n) (flat_map tabular_children level)).
    { eapply level_ok_sublist; [|apply flat_map_listing_ok, Hok].
      apply flat_map_sublist. intros q. apply filter_sublist. }
    destruct Hf as [Hnd Hall]. split; [exact Hnd|].
    intros p Hp. destruct (Hall p Hp) as [_ Hl]. lia.
  - change (level_order (S d) level) with
      (flat_map tabular_children level ++ level_order d (flat_map subdirectories level)).
    assert (Hf : level_ok (S n) (flat_map tabular_children level)).
    { eapply level_ok_sublist; [|apply flat_map_listing_ok, Hok].
      apply flat_map_sublist. intros q. apply filter_sublist. }
    assert (Hs : level_ok (S n) (flat_map subdirectories level)).
    { eapply level_ok_sublist; [|apply flat_map_listing_ok, Hok].
      apply flat_map_sublist. intros q. apply filter_sublist. }
    destruct (IH (S n) _ Hs) as [IHnd IHlen]. destruct Hf as [Hnd Hall]. split.
    + rewrite map_app. apply NoDup_app. split; [exact Hnd|]. split; [|exact IHnd].
      intros x Hx Hx'. apply list_elem_of_In in Hx, Hx'.
      apply in_map_iff in Hx as [p [<- Hp]]. apply in_map_iff in Hx' as [p' [Heq Hp']].
      destruct (Hall p Hp) as [_ Hl]. specialize (IHlen p' Hp'). rewrite Heq in IHlen. lia.
    + intros p Hp. apply in_app_or in Hp as [Hp|Hp].
      * destruct (Hall p Hp) as [_ Hl]. lia.
      * specialize (IHlen p Hp). lia.
Qed.

Lemma level_order_app d : forall l1 l2,
  Permutation (level_order d (l1 ++ l2)) (level_order d l1 ++ level_order d l2).
Proof.
  induction d as [|d IH]; intros l1 l2; simpl; rewrite !flat_map_app.
  - rewrite !app_nil_r. reflexivity.
  - rewrite IH, <- !app_assoc. apply Permutation_app_head.
    rewrite !app_assoc. apply Permutation_app_tail. apply Permutation_app_comm.
Qed.

Lemma level_order_nil d : level_order d [] = [].
Proof. induction d as [|d IH]; simpl; [reflexivity|exact IH]. Qed.

Lemma flat_map_level_order d dirs :
  Permutation (flat_map (fun s => level_order d [s]) dirs) (level_order d dirs).
Proof.
  induction dirs as [|s r IH]; simpl.
  - rewrite level_order_nil. constructor.
  - rewrite IH. symmetry. apply (level_order_app d [s] r).
Qed.

Lemma lookup_entry_unique n es :
  (forall e, In e es -> unique_names (snd e) = true) ->
  unique_names (lookup_entry n es) = true.
Proof.
  intros H. induction es as [|[m t] r IH]; simpl; [reflexivity|].
  destruct (String.eqb m n).
  - apply (H (m, t)). left. reflexivity.
  - apply IH. intros e He. apply H. right. exact He.
Qed.

Lemma NoDup_map_joinpath dataset_root (names : list string) :
  NoDup names -> NoDup (map parts (map (joinpath dataset_root) names)).
Proof.
  rewrite map_map. simpl.
  induction names as [|n r IH]; simpl; intros H; [constructor|].
  apply NoDup_cons in H as [Hnot Hr]. apply NoDup_cons. split; [|apply IH, Hr].
  intros Hin. apply Hnot. apply list_elem_of_In in Hin. apply list_elem_of_In.
  apply in_map_iff in Hin as [n' [Heq Hn']].
  apply app_inj_tail in Heq as [_ ->]. exact Hn'.
Qed.

Lemma allowlisted_level_ok dataset_root :
  unique_names (target dataset_root) = true ->
  level_ok (S (length (parts dataset_root))) (list_allowlisted_directories dataset_root).
Proof.
  intros Hu. unfold list_allowlisted_directories.
  eapply level_ok_sublist; [apply filter_sublist|]. split.
  - apply NoDup_map_joinpath.
    apply (bool_decide_eq_true_1 (NoDup ALLOWED_SUBDIRECTORIES)). reflexivity.
  - intros q Hq. apply in_map_iff in Hq as [n [<- _]]. unfold joinpath; simpl. split.
    + destruct (target dataset_root) as [|l es| |]; try reflexivity.
      apply lookup_entry_unique. apply (unique_names_entries l es Hu).
    + rewrite length_app. simpl. lia.
Qed.

(** X7.  No candidate twice.  In a snapshot whose directories name each
    entry once, discovery returns pairwise distinct paths: no file is
    inspected twice. *)
Theorem discovered_paths_are_distinct
    dataset_root max_files subdir_max_depth files warnings :
  unique_names (target dataset_root) = true ->
  0 <= max_files ->
  discover_tabular_files dataset_root max_files subdir_max_depth = inr (files, warnings) ->
  NoDup (map parts files).
Proof.
  intros Hu Hmf Hrun.
  rewrite (discover_tabular_files_order _ _ _ _ _ Hmf Hrun).
  eapply sublist_NoDup; [|apply sublist_map, sublist_take].
  unfold discovery_order. rewrite map_app.
  assert (Hroot : level_ok (length (parts dataset_root)) [dataset_root]).
  { split; [apply NoDup_singleton|]. intros q [<-|[]]. auto. }
  destruct (level_order_unique 0 _ _ Hroot) as [Hnd _].
  simpl in Hnd. rewrite !app_nil_r in Hnd.
  destruct (level_order_unique (Z.to_nat subdir_max_depth) _ _
              (allowlisted_level_ok dataset_root Hu)) as [Hnd' Hlen'].
  apply NoDup_app. split; [exact Hnd|]. split.
  - intros x Hx Hx'. apply list_elem_of_In in Hx, Hx'.
    apply in_map_iff in Hx as [p [<- Hp]]. apply in_map_iff in Hx' as [p' [Heq Hp']].
    apply tabular_children_parts in Hp as [n Hn].
    eapply Permutation_in in Hp'; [|apply flat_map_level_order].
    specialize (Hlen' p' Hp'). rewrite Heq, Hn, length_app in Hlen'. simpl in Hlen'. lia.
  - rewrite (Permutation_map parts (flat_map_level_order _ _)). exact Hnd'.
Qed.

Lemma discovered_paths_are_distinct_witness :
  unique_names (target small_tree) = true
  /\ 0 <= 12
  /\ NoDup (map parts
       [file_at ["data"; "a.CSV"]; file_at ["data"; "b.csv"];
        file_at ["data"; "train"; "a.csv"]; file_at ["data"; "train"; "z.parquet"];
        file_at ["data"; "train"; "sub"; "q.csv"]]).
Proof.
  assert (H0 : unique_names (target small_tree) = true) by (vm_compute; reflexivity).
  assert (H1 : 0 <= 12) by lia.
  exact (conj H0 (conj H1
    (discovered_paths_are_distinct small_tree 12 1 _ _ H0 H1 small_tree_depth_1))).
Defined.

(** ** The classifier *)

Lemma lower_ascii_dot c : Ascii.eqb (lower_ascii c) "." = Ascii.eqb c ".".
Proof. destruct c as [[] [] [] [] [] [] [] []]; reflexivity. Qed.

Lemma from_last_dot_lower s :
  from_last_dot (lower s) = option_map lower (from_last_dot s).
Proof.
  induction s as [|c r IH]; simpl; [reflexivity|].
  rewrite IH. destruct (from_last_dot r); simpl; [reflexivity|].
  rewrite lower_ascii_dot. destruct (Ascii.eqb c "."); reflexivity.
Qed.

Lemma length_lower s : String.length (lower s) = String.length s.
Proof. induction s as [|c r IH]; simpl; [reflexivity|]. rewrite IH. reflexivity. Qed.

Lemma lower_suffix_by_lower_name p q :
  lower (name p) = lower (name q) -> lower (suffix p) = lower (suffix q).
Proof.
  unfold suffix. destruct (name p) as [|a r], (name q) as [|a' r']; simpl;
    try discriminate; [reflexivity|].
  intros [= _ Hr]. apply (f_equal from_last_dot) in Hr.
  rewrite !from_last_dot_lower in Hr.
  destruct (from_last_dot r) as [t|], (from_last_dot r') as [t'|]; simpl in Hr;
    try discriminate; [|reflexivity].
  injection Hr as Ht. pose proof (f_equal String.length Ht) as Hlen.
  rewrite !length_lower in Hlen. rewrite Hlen.
  destruct (1 <? String.length t')%nat; [exact Ht|reflexivity].
Qed.

(** X8.  The classifier ignores letter case.  Two regular files whose names
    differ only in the case of ASCII letters are classified alike, so
    [DATA.CSV] and [data.Parquet] are tabular files as [data.csv] is. *)
Theorem is_tabular_file_ignores_case p q :
  lower (name p) = lower (name q) ->
  is_file p = is_file q ->
  is_tabular_file p = is_tabular_file q.
Proof.
  intros Hname Hfile. unfold is_tabular_file.
  rewrite Hfile, (lower_suffix_by_lower_name p q Hname). reflexivity.
Qed.

Lemma is_tabular_file_ignores_case_witness :
  lower (name (file_at ["data"; "Train.PARQUET"])) = lower (name (file_at ["data"; "train.parquet"]))
  /\ is_file (file_at ["data"; "Train.PARQUET"]) = is_file (file_at ["data"; "train.parquet"])
  /\ is_tabular_file (file_at ["data"; "Train.PARQUET"]) = true.
Proof.
  assert (H0 : lower (name (file_at ["data"; "Train.PARQUET"]))
               = lower (name (file_at ["data"; "train.parquet"]))) by reflexivity.
  assert (H1 : is_file (file_at ["data"; "Train.PARQUET"])
               = is_file (file_at ["data"; "train.parquet"])) by reflexivity.
  refine (conj H0 (conj H1 _)).
  rewrite (is_tabular_file_ignores_case _ _ H0 H1). reflexivity.
Defined.

(** * Further properties of the CSV inspector *)

Lemma count_row_exact row columns : forall null_counts,
  cells_only row ->
  (forall c, In c columns -> is_Some (null_counts !! c)) ->
  exists null_counts',
    count_row columns row null_counts = inr null_counts'
    /\ forall k,
         null_counts' !! k =
         (fun c => c + (if cell_empty row k then occurrences k columns else 0))
           <$> null_counts !! k.
Proof.
  induction columns as [|column rest IH]; intros null_counts Hrow Hkeys; simpl.
  - exists null_counts. split; [reflexivity|]. intros k.
    destruct (null_counts !! k); simpl; [|reflexivity].
    f_equal; destruct (cell_empty row k); unfold occurrences, len; simpl; lia.
  - assert (Hcell : is_empty_cell (row !! Some column) = inr (cell_empty row column)).
    { unfold cell_empty. destruct (row !! Some column) as [[v| |l]|] eqn:Hv; simpl; auto.
      exfalso. exact (Hrow _ _ Hv). }
    rewrite Hcell. destruct (cell_empty row column) eqn:Hce.
    + destruct (Hkeys column (or_introl eq_refl)) as [c0 Hc0]. rewrite Hc0.
      destruct (IH (<[column := c0 + 1]> null_counts) Hrow) as [nc' [Hrun Hex]].
      { intros c Hc. destruct (decide (column = c)) as [->|Hne].
        - rewrite lookup_insert_eq. eauto.
        - rewrite lookup_insert_ne by exact Hne. apply Hkeys. right. exact Hc. }
      exists nc'. split; [exact Hrun|].
      intros k. rewrite Hex, occurrences_cons.
      destruct (bool_decide_reflect (column = k)) as [->|Hne].
      * rewrite lookup_insert_eq, Hc0, Hce. simpl. f_equal; lia.
      * rewrite lookup_insert_ne by exact Hne.
        destruct (null_counts !! k); simpl; [|reflexivity].
        f_equal; destruct (cell_empty row k); lia.
    + destruct (IH null_counts Hrow) as [nc' [Hrun Hex]].
      { intros c Hc. apply Hkeys. right. exact Hc. }
      exists nc'. split; [exact Hrun|].
      intros k. rewrite Hex, occurrences_cons.
      destruct (null_counts !! k); simpl; [|reflexivity]. f_equal.
      destruct (bool_decide_reflect (column = k)) as [->|Hne].
      * rewrite Hce. reflexivity.
      * destruct (cell_empty row k); lia.
Qed.

Lemma sample_loop_exact sample_rows columns rows : forall sampled null_counts,
  Forall cells_only rows ->
  (forall c, In c columns -> is_Some (null_counts !! c)) ->
  exists sampled' null_counts',
    sample_loop sample_rows columns rows (sampled, null_counts) = inr (sampled', null_counts')
    /\ forall k,
         null_counts' !! k =
         (fun c => c + occurrences k columns *
                      len (List.filter (fun row => cell_empty row k)
                             (take (Z.to_nat (sample_rows - sampled)) rows)))
           <$> null_counts !! k.
Proof.
  induction rows as [|row rest IH]; intros sampled null_counts Hrows Hkeys; simpl.
  - exists sampled, null_counts. split; [reflexivity|]. intros k.
    rewrite take_nil. destruct (null_counts !! k); simpl; [|reflexivity].
    f_equal; unfold len; simpl; lia.
  - inversion Hrows as [|? ? Hrow Hrest]; subst.
    destruct (Z.leb_spec sample_rows sampled) as [Hfull|Hroom].
    + exists sampled, null_counts. split; [reflexivity|]. intros k.
      replace (Z.to_nat (sample_rows - sampled)) with 0%nat by lia. simpl.
      destruct (null_counts !! k); simpl; [|reflexivity].
      f_equal; unfold len; simpl; lia.
    + destruct (count_row_exact row columns null_counts Hrow Hkeys) as [nc1 [-> Hex1]].
      destruct (IH (sampled + 1) nc1 Hrest) as [sampled' [nc' [Hrun Hex2]]].
      { intros c Hc. rewrite Hex1. destruct (Hkeys c Hc) as [v ->]. simpl. eauto. }
      exists sampled', nc'. split; [exact Hrun|]. intros k.
      rewrite Hex2, Hex1.
      replace (Z.to_nat (sample_rows - sampled))
        with (S (Z.to_nat (sample_rows - (sampled + 1)))) by lia.
      simpl. destruct (null_counts !! k); simpl; [|reflexivity]. f_equal.
      destruct (cell_empty row k); unfold len; simpl; lia.
Qed.

Lemma zip_insert_other (col : ustr) : forall header row (d : gmap (option ustr) cell),
  ~ In col header ->
  foldl (fun d kv => <[Some (fst kv) := Str (snd kv)]> d) d (zip header row) !! Some col
  = d !! Some col.
Proof.
  induction header as [|h hs IH]; intros [|r rs] d Hnot; simpl; try reflexivity.
  rewrite IH by (intros H; apply Hnot; right; exact H).
  apply lookup_insert_ne. intros [= ->]. apply Hnot. left. reflexivity.
Qed.

Lemma zip_insert_lookup : forall header row (d : gmap (option ustr) cell) i col,
  NoDup header -> header !! i = Some col ->
  foldl (fun d kv => <[Some (fst kv) := Str (snd kv)]> d) d (zip header row) !! Some col
  = match row !! i with
    | Some s => Some (Str s)
    | None => d !! Some col
    end.
Proof.
  induction header as [|h hs IH]; intros row d i col Hnd Hi; [discriminate|].
  apply NoDup_cons in Hnd as [Hnot Hnd]. rewrite list_elem_of_In in Hnot.
  destruct row as [|r rs]; [destruct i; reflexivity|]. simpl.
  destruct i as [|j]; simpl in Hi.
  - injection Hi as ->. rewrite zip_insert_other by exact Hnot.
    simpl. apply lookup_insert_eq.
  - rewrite (IH rs _ j col Hnd Hi). simpl.
    destruct (rs !! j); [reflexivity|].
    apply lookup_insert_ne. intros [= ->]. apply Hnot.
    apply list_elem_of_In. eapply list_elem_of_lookup_2. exact Hi.
Qed.

Lemma rest_insert_lookup (col : ustr) : forall keys (d : gmap (option ustr) cell),
  foldl (fun d key => <[Some key := PyNone]> d) d keys !! Some col
  = if decide (col ∈ keys) then Some PyNone else d !! Some col.
Proof.
  induction keys as [|k r IH]; intros d; simpl.
  - destruct (decide (col ∈ [])) as [H|_]; [inversion H|reflexivity].
  - rewrite IH. destruct (decide (col ∈ r)) as [Hin|Hnot].
    + destruct (decide (col ∈ k :: r)) as [_|H]; [reflexivity|].
      exfalso. apply H. right. exact Hin.
    + destruct (decide (k = col)) as [->|Hne].
      * rewrite lookup_insert_eq. destruct (decide (col ∈ col :: r)) as [_|H]; [reflexivity|].
        exfalso. apply H. left.
      * rewrite lookup_insert_ne by congruence.
        destruct (decide (col ∈ k :: r)) as [H|_]; [|reflexivity].
        apply elem_of_cons in H as [->|H]; [congruence|contradiction].
Qed.

(** With pairwise distinct names in the header, the row maps the name at
    position [i] to the cell at position [i], and to [None] when the row is
    shorter. *)
Lemma dict_row_lookup header row i col :
  NoDup header -> header !! i = Some col ->
  dict_row header row !! Some col =
  Some (match row !! i with Some s => Str s | None => PyNone end).
Proof.
  intros Hnd Hi. unfold dict_row.
  pose proof (zip_insert_lookup header row ∅ i col Hnd Hi) as Hzip.
  rewrite lookup_empty in Hzip.
  pose proof (lookup_lt_Some _ _ _ Hi) as Hlt.
  destruct (Nat.ltb_spec (length header) (length row)) as [Hlong|Hle].
  - rewrite lookup_insert_ne by discriminate. rewrite Hzip.
    destruct (lookup_lt_is_Some_2 row i ltac:(lia)) as [s ->]. reflexivity.
  - destruct (Nat.ltb_spec (length row) (length header)) as [Hshort|Hge].
    + rewrite rest_insert_lookup, Hzip.
      destruct (row !! i) as [s|] eqn:Hrow.
      * pose proof (lookup_lt_Some _ _ _ Hrow) as Hrlt.
        destruct (decide (col ∈ drop (length row) header)) as [Hin|_]; [|reflexivity].
        exfalso. apply list_elem_of_lookup in Hin as [j Hj].
        rewrite lookup_drop in Hj.
        pose proof (NoDup_lookup _ _ _ _ Hnd Hi Hj). lia.
      * apply lookup_ge_None in Hrow.
        destruct (decide (col ∈ drop (length row) header)) as [_|Hnot]; [reflexivity|].
        exfalso. apply Hnot. apply list_elem_of_lookup. exists (i - length row)%nat.
        rewrite lookup_drop. replace (length row + (i - length row))%nat with i by lia.
        exact Hi.
    + rewrite Hzip. destruct (lookup_lt_is_Some_2 row i ltac:(lia)) as [s ->]. reflexivity.
Qed.

Lemma cell_empty_dict_row header row i col :
  NoDup header -> header !! i = Some col ->
  cell_empty (dict_row header row) col = blank_at i row.
Proof.
  intros Hnd Hi. unfold cell_empty, blank_at.
  rewrite (dict_row_lookup header row i col Hnd Hi).
  destruct (row !! i); reflexivity.
Qed.

Lemma occurrences_NoDup_In col columns :
  NoDup columns -> In col columns -> occurrences col columns = 1.
Proof.
  intros Hnd Hin. pose proof (occurrences_NoDup col columns Hnd) as Hle.
  assert (1 <= occurrences col columns); [|lia].
  clear Hnd Hle. induction columns as [|c r IH]; [destruct Hin|].
  rewrite occurrences_cons. pose proof (occurrences_nonneg col r).
  destruct Hin as [->|Hin].
  - rewrite bool_decide_eq_true_2 by reflexivity. lia.
  - specialize (IH Hin). destruct (bool_decide (c = col)); lia.
Qed.

Section CsvCounts.

Variable csv_reader : ustr -> list (list ustr).

(** X9.  What a null count counts.  When the names of the header are
    pairwise distinct, the count of the column at position [i] is the number
    of rows, among the first [sample_rows] data rows, that have no cell at
    position [i] or only white space there. *)
Theorem csv_null_counts_are_blank_cells
    path sample_rows text header body i column summary :
  read_text path Replace = inr text ->
  csv_reader text = header :: body ->
  NoDup header ->
  header !! i = Some column ->
  inspect_csv_file csv_reader path sample_rows = inr summary ->
  null_counts summary !! column =
  Some (len (List.filter (blank_at i) (take (Z.to_nat sample_rows) (data_rows body)))).
Proof.
  intros Htext Hrecords Hnd Hi. unfold inspect_csv_file.
  rewrite Htext, header_columns, Hrecords. simpl.
  fold (data_rows body).
  set (init := foldl (fun m column => <[column := 0]> m) ∅ header).
  assert (Hinit : forall k, init !! k = if decide (k ∈ header) then Some 0 else None).
  { intros k. unfold init. rewrite initial_counts_lookup, lookup_empty. reflexivity. }
  destruct (sample_loop_exact sample_rows header (map (dict_row header) (data_rows body)) 0 init)
    as [sampled [nc [Hrun Hex]]].
  { apply Forall_map. apply List.Forall_forall. intros row _. apply dict_row_cells_only. }
  { intros c Hc. apply list_elem_of_In in Hc. rewrite Hinit.
    destruct (decide (c ∈ header)); [eauto|contradiction]. }
  rewrite Hrun. intros [= <-]. simpl.
  assert (Hin : column ∈ header) by (eapply list_elem_of_lookup_2; exact Hi).
  rewrite Hex, Hinit. destruct (decide (column ∈ header)); [|contradiction]. simpl.
  rewrite (occurrences_NoDup_In column header Hnd) by (apply list_elem_of_In; exact Hin).
  f_equal. rewrite Z.sub_0_r, Z.add_0_l, Z.mul_1_l.
  unfold len. f_equal. rewrite firstn_map.
  generalize (take (Z.to_nat sample_rows) (data_rows body)). intros rows.
  induction rows as [|row r IH]; simpl; [reflexivity|].
  rewrite (cell_empty_dict_row header row i column Hnd Hi).
  destruct (blank_at i row); simpl; rewrite IH; reflexivity.
Qed.

End CsvCounts.

Lemma csv_null_counts_are_blank_cells_witness :
  exists text header body summary,
    read_text scenario_A_csv Replace = inr text
    /\ plain_csv_reader text = header :: body
    /\ NoDup header
    /\ header !! 1%nat = Some (ustr_of "label")
    /\ inspect_csv_file plain_csv_reader scenario_A_csv 200 = inr summary
    /\ null_counts summary !! ustr_of "label" =
       Some (len (List.filter (blank_at 1) (take (Z.to_nat 200) (data_rows body)))).
Proof.
  eexists. eexists. eexists. eexists.
  split; [vm_compute; reflexivity|].
  split; [vm_compute; reflexivity|].
  split; [apply (bool_decide_eq_true_1 _); vm_compute; reflexivity|].
  split; [reflexivity|].
  split; [vm_compute; reflexivity|].
  eapply (csv_null_counts_are_blank_cells plain_csv_reader scenario_A_csv 200 _ _ _ 1%nat).
  - vm_compute; reflexivity.
  - vm_compute; reflexivity.
  - apply (bool_decide_eq_true_1 _); vm_compute; reflexivity.
  - reflexivity.
  - vm_compute; reflexivity.
Defined.

Section CsvEdges.

Variable csv_reader : ustr -> list (list ustr).

(** X10.  Nothing to sample.  When [sample_rows] is not positive, or the file
    has no data row (it is empty, holds the header only, or only empty lines
    below it), the summary reports no sampled row and the count 0 for every
    column of the header. *)
Theorem csv_without_sampled_rows path sample_rows summary text :
  read_text path Replace = inr text ->
  inspect_csv_file csv_reader path sample_rows = inr summary ->
  sample_rows <= 0 \/ dict_rows (csv_reader text) = [] ->
  sampled_rows summary = 0
  /\ forall column, In column (columns summary) -> null_counts summary !! column = Some 0.
Proof.
  intros Htext Hrun Hedge.
  assert (Hfile : is_file path = true).
  { unfold read_text, is_file in *. destruct (target path); try discriminate. reflexivity. }
  destruct (inspect_csv_file_spec csv_reader path sample_rows Hfile)
    as [text' [summary' [Htext' [Hrun' [_ [Hs [Hkeys Hbound]]]]]]].
  rewrite Htext in Htext'. injection Htext' as <-.
  rewrite Hrun in Hrun'. injection Hrun' as <-.
  assert (H0 : sampled_rows summary = 0).
  { rewrite Hs. pose proof (len_nonneg (dict_rows (csv_reader text))).
    destruct Hedge as [Hsr|Hnone]; [lia|]. rewrite Hnone. unfold len; simpl. lia. }
  split; [exact H0|].
  intros column Hc. apply Hkeys in Hc as [c Hc]. rewrite Hc. f_equal.
  destruct (Hbound _ _ Hc) as [Hlo Hhi]. rewrite H0 in Hhi. lia.
Qed.

End CsvEdges.

Lemma csv_without_sampled_rows_witness :
  exists summary text,
    read_text scenario_A_csv Replace = inr text
    /\ inspect_csv_file plain_csv_reader scenario_A_csv 0 = inr summary
    /\ (0 <= 0 \/ dict_rows (plain_csv_reader text) = [])
    /\ sampled_rows summary = 0
    /\ forall column, In column (columns summary) -> null_counts summary !! column = Some 0.
Proof.
  eexists. eexists.
  split; [vm_compute; reflexivity|].
  split; [vm_compute; reflexivity|].
  split; [left; lia|].
  eapply (csv_without_sampled_rows plain_csv_reader scenario_A_csv 0).
  - vm_compute; reflexivity.
  - vm_compute; reflexivity.
  - left. lia.
Defined.

(** * Further properties of the Parquet inspector *)

Lemma column_counts_lookup (f : string -> Z) cols : forall (m : gmap string Z) k,
  foldl (fun m column_name => <[column_name := f column_name]> m) m cols !! k =
  if decide (k ∈ cols) then Some (f k) else m !! k.
Proof.
  induction cols as [|c r IH]; intros m k; simpl.
  - destruct (decide (k ∈ [])) as [H|_]; [inversion H|reflexivity].
  - rewrite IH. destruct (decide (k ∈ r)) as [Hin|Hnot].
    + destruct (decide (k ∈ c :: r)) as [_|H]; [reflexivity|].
      exfalso. apply H. right. exact Hin.
    + destruct (decide (c = k)) as [->|Hne].
      * rewrite lookup_insert_eq. destruct (decide (k ∈ k :: r)) as [_|H]; [reflexivity|].
        exfalso. apply H. left.
      * rewrite lookup_insert_ne by exact Hne.
        destruct (decide (k ∈ c :: r)) as [H|_]; [|reflexivity].
        apply elem_of_cons in H as [->|H]; [congruence|contradiction].
Qed.

(** X11.  What the Parquet summary holds once the file opens, for a first
    batch that names each of its columns once.  The columns are the schema
    of the file whether or not the sample can be read.  When the first batch
    is read, the status is [ok], [sampled_rows] is the number of rows of that
    batch, and [null_counts] maps exactly the columns of the batch, each to
    its null count; a file without batches gives 0 rows and no counts; a
    failure while reading gives [read-error] with the message of the
    failure. *)
Theorem parquet_summary_of_opened_file host path sample_rows open_parquet parquet_file :
  pyarrow host = Some open_parquet ->
  open_parquet path = inr parquet_file ->
  (forall table, first_batch parquet_file sample_rows = inr (Some table) ->
                 NoDup (column_names table)) ->
  pq_columns (inspect_parquet_file host path sample_rows) = schema_arrow parquet_file
  /\ match first_batch parquet_file sample_rows with
     | inr (Some table) =>
         status (inspect_parquet_file host path sample_rows) = "ok"
         /\ pq_sampled_rows (inspect_parquet_file host path sample_rows)
            = Some (num_rows table)
         /\ exists counts,
              pq_null_counts (inspect_parquet_file host path sample_rows) = Some counts
              /\ dom counts = list_to_set (column_names table)
              /\ forall c, In c (column_names table) ->
                           counts !! c = Some (null_count table c)
     | inr None =>
         status (inspect_parquet_file host path sample_rows) = "ok"
         /\ pq_sampled_rows (inspect_parquet_file host path sample_rows) = Some 0
         /\ pq_null_counts (inspect_parquet_file host path sample_rows) = Some ∅
     | inl err =>
         status (inspect_parquet_file host path sample_rows) = "read-error"
         /\ error (inspect_parquet_file host path sample_rows)
            = Some ("pyarrow failed while reading sample rows: " +:+ err)
     end.
Proof.
  intros Hpa Hopen _. unfold inspect_parquet_file. rewrite Hpa, Hopen.
  destruct (first_batch parquet_file sample_rows) as [err|[table|]]; simpl;
    repeat split.
  eexists. split; [reflexivity|]. split.
  - apply set_eq. intros k.
    rewrite elem_of_dom, elem_of_list_to_set, column_counts_lookup, lookup_empty.
    destruct (decide (k ∈ column_names table)); split; eauto; try tauto.
    intros [? ?]; discriminate.
  - intros c Hc. rewrite column_counts_lookup.
    destruct (decide (c ∈ column_names table)) as [_|Hnot]; [reflexivity|].
    exfalso. apply Hnot, list_elem_of_In, Hc.
Qed.

Lemma parquet_summary_of_opened_file_witness :
  pyarrow sampling_host = Some (fun _ => inr sampling_file)
  /\ (forall table, first_batch sampling_file 200 = inr (Some table) ->
                    NoDup (column_names table))
  /\ pq_columns (inspect_parquet_file sampling_host (file_at ["data"; "x.parquet"]) 200)
     = [("id", "int64"); ("label", "string")]
  /\ status (inspect_parquet_file sampling_host (file_at ["data"; "x.parquet"]) 200) = "ok"
  /\ pq_sampled_rows (inspect_parquet_file sampling_host (file_at ["data"; "x.parquet"]) 200)
     = Some 3
  /\ exists counts,
       pq_null_counts (inspect_parquet_file sampling_host (file_at ["data"; "x.parquet"]) 200)
         = Some counts
       /\ dom counts = list_to_set ["id"; "label"]
       /\ forall c, In c ["id"; "label"] ->
                    counts !! c = Some (if String.eqb c "label" then 2 else 0).
Proof.
  assert (Hnames : forall table, first_batch sampling_file 200 = inr (Some table) ->
                                 NoDup (column_names table)).
  { intros table [= <-]. apply (bool_decide_eq_true_1 _). vm_compute. reflexivity. }
  split; [reflexivity|]. split; [exact Hnames|].
  exact (parquet_summary_of_opened_file sampling_host (file_at ["data"; "x.parquet"]) 200
           _ _ eq_refl eq_refl Hnames).
Defined.

(** The first batch of [sampling_host]: three rows, two labels missing. *)
Example sampling_host_summary :
  status (inspect_parquet_file sampling_host (file_at ["data"; "x.parquet"]) 200) = "ok"
  /\ pq_sampled_rows (inspect_parquet_file sampling_host (file_at ["data"; "x.parquet"]) 200)
     = Some 3
  /\ exists counts,
       pq_null_counts (inspect_parquet_file sampling_host (file_at ["data"; "x.parquet"]) 200)
         = Some counts
       /\ counts !! "label" = Some 2 /\ counts !! "id" = Some 0 /\ counts !! "other" = None.
Proof.
  split; [reflexivity|]. split; [reflexivity|]. eexists. split; [reflexivity|].
  repeat split; vm_compute; reflexivity.
Qed.

Lemma sql_literal_text_quoted s :
  sql_literal_text (replace_char "'" "''" s) = Some s.
Proof.
  induction s as [|c r IH]; [reflexivity|].
  change (replace_char "'" "''" (String c r))
    with ((if Ascii.eqb c "'" then "''" else String c EmptyString)
          +:+ replace_char "'" "''" r).
  set (quoted := replace_char "'" "''" r) in *.
  destruct (Ascii.eqb c "'") eqn:Hc.
  - apply Ascii.eqb_eq in Hc. subst c.
    change ("''" +:+ quoted) with (String "'" (String "'" quoted)).
    simpl. rewrite IH. reflexivity.
  - change (String c EmptyString +:+ quoted) with (String c quoted).
    simpl. rewrite Hc, IH. reflexivity.
Qed.

(** X12.  The path inside the DuckDB commands.  When [duckdb] is on the host,
    the first option is the one for [duckdb], and both of its commands put
    the path between single quotes in a form that, read as a SQL string
    literal, is the path again: a quote in the path cannot end the literal. *)
Theorem duckdb_commands_quote_the_path host path :
  which host "duckdb" = true ->
  exists sql others,
    sql_literal_text sql = Some (path_str path)
    /\ options (build_parquet_fallback host path) =
       mkOption "duckdb"
         ["duckdb -c " +:+ DQUOTE +:+ "DESCRIBE SELECT * FROM read_parquet('"
            +:+ sql +:+ "') LIMIT 0;" +:+ DQUOTE;
          "duckdb -c " +:+ DQUOTE +:+ "SELECT * FROM read_parquet('"
            +:+ sql +:+ "') LIMIT 5;" +:+ DQUOTE]
       :: others.
Proof.
  intros Hduck. exists (replace_char "'" "''" (path_str path)).
  unfold build_parquet_fallback. rewrite Hduck.
  destruct (which host "parquet-tools");
    (eexists; split; [apply sql_literal_text_quoted|reflexivity]).
Qed.

Lemma duckdb_commands_quote_the_path_witness :
  which failing_host "duckdb" = true
  /\ exists sql others,
       sql_literal_text sql = Some (path_str (file_at ["data"; "it's.parquet"]))
       /\ options (build_parquet_fallback failing_host (file_at ["data"; "it's.parquet"])) =
          mkOption "duckdb"
            ["duckdb -c " +:+ DQUOTE +:+ "DESCRIBE SELECT * FROM read_parquet('"
               +:+ sql +:+ "') LIMIT 0;" +:+ DQUOTE;
             "duckdb -c " +:+ DQUOTE +:+ "SELECT * FROM read_parquet('"
               +:+ sql +:+ "') LIMIT 5;" +:+ DQUOTE]
          :: others.
Proof.
  split; [reflexivity|].
  exact (duckdb_commands_quote_the_path failing_host (file_at ["data"; "it's.parquet"]) eq_refl).
Defined.

(** * Further properties of the run *)

Lemma iterdir_error p e : iterdir p = inl e -> e = OSError.
Proof.
  unfold iterdir. destruct (target p) as [|[] ?| |]; intros H; inversion H; reflexivity.
Qed.

Lemma discover_tabular_files_raises dataset_root max_files subdir_max_depth e :
  iterdir dataset_root = inl e ->
  discover_tabular_files dataset_root max_files subdir_max_depth = inl e.
Proof.
  intros H. unfold discover_tabular_files, list_root_tabular_files. rewrite H. reflexivity.
Qed.

Lemma exists_of_is_dir p : is_dir p = true -> exists_ p = true.
Proof. unfold is_dir, exists_. destruct (target p); try discriminate; reflexivity. Qed.

(** Validation accepts exactly [valid_args], hands the root back, and
    otherwise raises [ValueError]. *)
Lemma validate_inputs_spec args :
  match validate_inputs args with
  | inr (dataset_root, input_warnings) =>
      dataset_root = args_dataset_root args
      /\ valid_args args
      /\ input_warnings =
         (if args_subdir_max_depth args =? 0 then [subdir_scan_disabled] else [])
  | inl e => (exists msg, e = ValueError msg) /\ ~ valid_args args
  end.
Proof.
  unfold validate_inputs, valid_args.
  destruct (exists_ (args_dataset_root args)) eqn:Hex; simpl.
  - destruct (is_dir (args_dataset_root args)) eqn:Hdir; simpl.
    + destruct (Z.leb_spec (args_max_files args) 0);
        [split; [eauto|intros [_ [? _]]; lia]|].
      destruct (Z.leb_spec (args_sample_rows args) 0);
        [split; [eauto|intros [_ [_ [? _]]]; lia]|].
      destruct (Z.ltb_spec (args_subdir_max_depth args) 0);
        [split; [eauto|intros [_ [_ [_ ?]]]; lia]|].
      repeat split; auto.
    + split; [eauto|]. intros [? _]. discriminate.
  - split; [eauto|]. intros [Hdir _]. apply exists_of_is_dir in Hdir. congruence.
Qed.

Section RunContract.

Variable csv_reader : ustr -> list (list ustr).
Variable host : Host.

Lemma inspect_file_inspection_of p sample_rows item :
  inspect_file csv_reader host p sample_rows = inr item -> inspection_of p item.
Proof.
  unfold inspect_file. destruct (String.eqb_spec (lower (suffix p)) ".csv") as [Hcsv|Hnot].
  - unfold inspect_csv_file.
    destruct (read_text p Replace); [discriminate|].
    destruct (sample_loop _ _ _ _) as [?|[n m]]; [discriminate|].
    intros [= <-]. simpl. auto.
  - intros [= <-]. simpl. split; [exact Hnot|].
    unfold inspect_parquet_file.
    destruct (pyarrow host) as [open_parquet|]; [|simpl; auto].
    destruct (open_parquet p) as [?|pf]; [simpl; auto|].
    destruct (first_batch pf sample_rows) as [?|[table|]]; simpl; auto.
Qed.

Lemma inspect_all_inspection_of files sample_rows : forall items,
  inspect_all csv_reader host files sample_rows = inr items ->
  Forall2 inspection_of files items.
Proof.
  induction files as [|p r IH]; simpl; intros items.
  - intros [= <-]. constructor.
  - destruct (inspect_file csv_reader host p sample_rows) as [?|item] eqn:Hp; [discriminate|].
    destruct (inspect_all csv_reader host r sample_rows) as [?|rest]; [discriminate|].
    intros [= <-]. constructor; [apply inspect_file_inspection_of with sample_rows, Hp|].
    apply IH. reflexivity.
Qed.

(** X13.  The exit codes.  A run that returns ends with exit code 2 and no
    report exactly when the arguments are invalid (the root is no directory,
    [max_files] or [sample_rows] is not positive, or the depth is negative),
    and with exit code 0 and a report exactly when they are valid; the report
    holds at most [max_files] inspections and repeats the parameters of the
    run. *)
Theorem main_exit_codes args exit_code report :
  main csv_reader host args = inr (exit_code, report) ->
  (exit_code = 2 /\ report = None /\ ~ valid_args args)
  \/ (exit_code = 0 /\ valid_args args
      /\ exists r,
           report = Some r
           /\ len (inspections r) <= args_max_files args
           /\ report_dataset_root r = path_str (args_dataset_root args)
           /\ report_max_files r = args_max_files args
           /\ report_sample_rows r = args_sample_rows args
           /\ report_subdir_max_depth r = args_subdir_max_depth args).
Proof.
  pose proof (validate_inputs_spec args) as Hval. unfold main.
  destruct (validate_inputs args) as [e|[dataset_root input_warnings]] eqn:Hv.
  - destruct Hval as [[msg ->] Hnot]. intros [= <- <-]. left. auto.
  - destruct Hval as [-> [Hvalid _]].
    destruct (discover_tabular_files _ _ _) as [?|[files ws]] eqn:Hrun; [discriminate|].
    destruct (inspect_all _ _ _ _) as [?|items] eqn:Hall; [discriminate|].
    intros [= <- <-]. right. split; [reflexivity|]. split; [exact Hvalid|].
    eexists. split; [reflexivity|]. simpl. repeat split.
    assert (Hmf : 0 <= args_max_files args) by (destruct Hvalid as [_ [? _]]; lia).
    unfold len.
    rewrite <- (Forall2_length _ _ _ (inspect_all_inspection_of _ _ _ Hall)).
    rewrite (discover_tabular_files_order _ _ _ _ _ Hmf Hrun), length_take. lia.
Qed.


End RunContract.

Lemma main_exit_codes_witness :
  exists report,
    main plain_csv_reader bare_host (small_tree_args 0) = inr (0, Some report)
    /\ ((0 = 2 /\ Some report = None /\ ~ valid_args (small_tree_args 0))
        \/ (0 = 0 /\ valid_args (small_tree_args 0)
            /\ exists r,
                 Some report = Some r
                 /\ len (inspections r) <= args_max_files (small_tree_args 0)
                 /\ report_dataset_root r = path_str (args_dataset_root (small_tree_args 0))
                 /\ report_max_files r = args_max_files (small_tree_args 0)
                 /\ report_sample_rows r = args_sample_rows (small_tree_args 0)
                 /\ report_subdir_max_depth r = args_subdir_max_depth (small_tree_args 0))).
Proof.
  assert (Hrun : exists report,
            main plain_csv_reader bare_host (small_tree_args 0) = inr (0, Some report))
    by (eexists; vm_compute; reflexivity).
  destruct Hrun as [report Hrun]. exists report. split; [exact Hrun|].
  exact (main_exit_codes plain_csv_reader bare_host _ _ _ Hrun).
Defined.

(** Arguments that validation refuses end the run with exit code 2. *)
Example invalid_budget_exit_code :
  main plain_csv_reader bare_host (mkArgs small_tree 0 200 2 "text") = inr (2, None).
Proof. reflexivity. Qed.


(** * Edges of discovery *)

(** X1.  The scan of one directory is its level order.  For every directory,
    depth bound and limit, [bounded_scan_directory] returns the first
    [limit] files of the enumeration by levels, the children of each
    directory in name order; a limit that is not positive gives the empty
    list. *)
Theorem bounded_scan_is_level_order root max_depth limit :
  bounded_scan_directory root max_depth limit =
  take (Z.to_nat limit) (level_order (Z.to_nat max_depth) [root]).
Proof. apply bounded_scan_directory_level_order. Qed.

(** X15.  A depth bound that is not positive.  With [max_depth <= 0] the scan
    of a directory returns its own tabular entries, in name order and up to
    the limit, and nothing from any subdirectory. *)
Theorem bounded_scan_without_descent root max_depth limit :
  max_depth <= 0 ->
  bounded_scan_directory root max_depth limit =
  take (Z.to_nat limit) (tabular_children root).
Proof.
  intros Hd. rewrite bounded_scan_directory_level_order.
  replace (Z.to_nat max_depth) with 0%nat by lia.
  simpl. rewrite !app_nil_r. reflexivity.
Qed.

Lemma bounded_scan_without_descent_witness :
  -1 <= 0
  /\ bounded_scan_directory (joinpath small_tree "train") (-1) 5 =
     take (Z.to_nat 5) (tabular_children (joinpath small_tree "train")).
Proof.
  split; [lia|]. apply (bounded_scan_without_descent (joinpath small_tree "train") (-1) 5). lia.
Defined.

(** X16.  A budget that is not positive.  Called with [max_files = 0],
    discovery returns no candidate; called with a negative [max_files] it
    returns the root files without the last [-max_files] of them (the slice
    [discovered[:max_files]]); in both cases no subdirectory is scanned and
    no warning is returned. *)
Theorem discover_with_nonpositive_budget
    dataset_root max_files subdir_max_depth root_files :
  list_root_tabular_files dataset_root = inr root_files ->
  max_files <= 0 ->
  discover_tabular_files dataset_root max_files subdir_max_depth =
  inr (take (Z.to_nat (if max_files =? 0 then 0 else len root_files + max_files)) root_files,
       []).
Proof.
  intros Hroot Hmf. unfold discover_tabular_files. rewrite Hroot.
  destruct (Z.leb_spec max_files (len root_files)) as [_|Hlt];
    [|pose proof (len_nonneg root_files); lia].
  unfold slice_to. destruct (Z.eqb_spec max_files 0) as [->|Hne].
  - reflexivity.
  - destruct (Z.leb_spec 0 max_files); [lia|reflexivity].
Qed.

Lemma discover_with_nonpositive_budget_witness :
  list_root_tabular_files small_tree = inr [file_at ["data"; "a.CSV"]; file_at ["data"; "b.csv"]]
  /\ -1 <= 0
  /\ discover_tabular_files small_tree (-1) 2 = inr ([file_at ["data"; "a.CSV"]], []).
Proof.
  assert (H0 : list_root_tabular_files small_tree
               = inr [file_at ["data"; "a.CSV"]; file_at ["data"; "b.csv"]])
    by (vm_compute; reflexivity).
  assert (H1 : -1 <= 0) by lia.
  exact (conj H0 (conj H1 (discover_with_nonpositive_budget small_tree (-1) 2 _ H0 H1))).
Defined.
